(** * Reolink recording-filename codec: a shallow embedding of
      [decodeHexToFlags] and [parseFileName] with the schema tables of
      [types.ts], and the properties of the codec checked against it.

    The program is TypeScript, so the embedding carries the part of the
    JavaScript semantics that the two functions exercise:

    - Numbers are IEEE doubles.  Every number the codec touches is an
      integer, NaN or an infinity, so a number is modelled as [NaN],
      [Infinity] or [Fin z] with [z] the integer value; conversion of a
      mathematical integer to a Number rounds to 53 significant bits
      (ties to even) and overflows to an infinity.  [+0] and [-0] are
      identified: the codec only prints them and converts them with
      ToInt32, which do not tell them apart.
    - The operators [<<], [>>] and [&] work on 32-bit two's complement
      integers and take shift counts modulo 32.
    - Strings are sequences of code units; the embedding uses Rocq strings,
      that is code units below 256. *)

From Stdlib Require Import ZArith Lia List Ascii String Bool.
From stdpp Require Import gmap strings list fin_maps.

#[local] Set Warnings "-clear-no-such-hyp".

Local Open Scope string_scope.
Local Open Scope Z_scope.

(** ** JavaScript numbers *)

Module JS.

Inductive number : Type :=
| NaN
| Infinity (negative : bool)
| Fin (z : Z).

(** Round a non-negative mathematical integer to the nearest integer that
    has at most 53 significant bits, ties to even. *)
Definition round53 (n : Z) : Z :=
  let len := Z.log2 n + 1 in
  if len <=? 53 then n
  else
    let e := len - 53 in
    let q := Z.shiftr n e in
    let r := Z.land n (Z.ones e) in
    let half := Z.shiftl 1 (e - 1) in
    let q' := if (half <? r) || ((r =? half) && Z.odd q) then q + 1 else q in
    Z.shiftl q' e.

(** The Number value of a mathematical integer. *)
Definition ofZ (m : Z) : number :=
  let a := round53 (Z.abs m) in
  if 2 ^ 1024 <=? a then Infinity (m <? 0) else Fin (Z.sgn m * a).

(** ToInt32: NaN and the infinities go to 0, an integer is taken modulo
    2^32 into [-2^31, 2^31). *)
Definition wrap32 (z : Z) : Z := (z + 2 ^ 31) mod 2 ^ 32 - 2 ^ 31.

Definition ToInt32 (n : number) : Z :=
  match n with
  | Fin z => wrap32 z
  | _ => 0
  end.

(** ToUint32, used for shift counts. *)
Definition ToUint32 (n : number) : Z :=
  match n with
  | Fin z => z mod 2 ^ 32
  | _ => 0
  end.

(** [a << b] *)
Definition shl (a b : number) : number :=
  Fin (wrap32 (Z.shiftl (ToInt32 a) (ToUint32 b mod 32))).

(** [a >> b] (sign-propagating) *)
Definition sar (a b : number) : number :=
  Fin (Z.shiftr (ToInt32 a) (ToUint32 b mod 32)).

(** [a & b] *)
Definition band (a b : number) : number :=
  Fin (Z.land (ToInt32 a) (ToInt32 b)).

(** [a - b] *)
Definition sub (a b : number) : number :=
  match a, b with
  | Fin x, Fin y => ofZ (x - y)
  | Infinity s, Fin _ => Infinity s
  | Fin _, Infinity s => Infinity (negb s)
  | Infinity s, Infinity t => if Bool.eqb s t then NaN else Infinity s
  | _, _ => NaN
  end.

(** [a * b], for the length computation [hexValue.length * 4]. *)
Definition mul (a b : number) : number :=
  match a, b with
  | Fin x, Fin y => ofZ (x * y)
  | Infinity s, Infinity t => Infinity (xorb s t)
  | Infinity s, Fin y =>
      if y =? 0 then NaN else Infinity (xorb s (y <? 0))
  | Fin x, Infinity t =>
      if x =? 0 then NaN else Infinity (xorb t (x <? 0))
  | _, _ => NaN
  end.

(** Truthiness of a number: everything but [0] and [NaN]. *)
Definition truthy (n : number) : bool :=
  match n with
  | NaN => false
  | Infinity _ => true
  | Fin z => negb (z =? 0)
  end.

(** [Math.max] of two numbers, and of a spread list: [Math.max()] is
    [-Infinity], and a NaN argument makes the result NaN. *)
Definition max2 (a b : number) : number :=
  match a, b with
  | NaN, _ | _, NaN => NaN
  | Infinity false, _ | _, Infinity false => Infinity false
  | Infinity true, x | x, Infinity true => x
  | Fin x, Fin y => Fin (Z.max x y)
  end.

Definition Math_max (l : list number) : number :=
  fold_left max2 l (Infinity true).

(** *** Strings *)

(** Digits of a positive integer in base 2, most significant first. *)
Fixpoint binary (p : positive) (acc : list ascii) : list ascii :=
  match p with
  | xH => "1"%char :: acc
  | xO p' => binary p' ("0"%char :: acc)
  | xI p' => binary p' ("1"%char :: acc)
  end.

(** [n.toString(2)] *)
Definition toString2 (n : number) : string :=
  match n with
  | NaN => "NaN"
  | Infinity false => "Infinity"
  | Infinity true => "-Infinity"
  | Fin 0 => "0"
  | Fin (Zpos p) => string_of_list_ascii (binary p [])
  | Fin (Zneg p) => String "-" (string_of_list_ascii (binary p []))
  end.

(** [s.length] *)
Definition length (s : string) : number := Fin (Z.of_nat (String.length s)).

(** [s.padStart(n, '0')]: the target length is ToLength of [n]. *)
Definition ToLength (n : number) : Z :=
  match n with
  | NaN | Infinity true => 0
  | Infinity false => 2 ^ 53 - 1
  | Fin z => Z.min (Z.max 0 z) (2 ^ 53 - 1)
  end.

Definition padStart0 (s : string) (n : number) : string :=
  let target := ToLength n in
  let len := Z.of_nat (String.length s) in
  if target <=? len then s
  else string_of_list_ascii (repeat "0"%char (Z.to_nat (target - len))) ++ s.

(** [s.split('').reverse().join('')] *)
Definition reverse (s : string) : string :=
  string_of_list_ascii (rev (list_ascii_of_string s)).

(** White space that [parseInt] trims, among the code units below 256:
    TAB, LF, VT, FF, CR, SP and NBSP. *)
Definition isWhiteSpace (c : ascii) : bool :=
  let n := N_of_ascii c in
  ((9 <=? n) && (n <=? 13) || (n =? 32) || (n =? 160))%N.

Fixpoint trimStart (s : string) : string :=
  match s with
  | String c s' => if isWhiteSpace c then trimStart s' else s
  | EmptyString => s
  end.

(** Value of a code unit as a digit: 0-9, a-z and A-Z. *)
Definition digitValue (c : ascii) : option Z :=
  let n := Z.of_N (N_of_ascii c) in
  if (48 <=? n) && (n <=? 57) then Some (n - 48)
  else if (97 <=? n) && (n <=? 122) then Some (n - 87)
  else if (65 <=? n) && (n <=? 90) then Some (n - 55)
  else None.

(** The longest prefix of radix-[R] digits, folded into its value; [None]
    when the prefix is empty. *)
Fixpoint digits (R : Z) (s : string) (acc : option Z) : option Z :=
  match s with
  | EmptyString => acc
  | String c s' =>
      match digitValue c with
      | Some d =>
          if d <? R
          then digits R s' (Some (R * (match acc with Some a => a | None => 0 end) + d))
          else acc
      | None => acc
      end
  end.

Definition hasHexPrefix (s : string) : bool :=
  match s with
  | String "0" (String "x" _) | String "0" (String "X" _) => true
  | _ => false
  end.

(** The sign of the trimmed input, and the input without its sign and
    without the two code units of a hexadecimal prefix. *)
Definition signOf (s : string) : Z :=
  match s with
  | String "-" _ => -1
  | _ => 1
  end.

Definition dropSign (s : string) : string :=
  match s with
  | String "-" r | String "+" r => r
  | _ => s
  end.

Definition dropPrefix (s : string) : string :=
  match s with
  | String _ (String _ r) => r
  | _ => s
  end.

(** [parseInt(s, radix)]; [radix = 0] is the call without a radix.  The
    radices used by the codec (none, 2 and 16) are all exact. *)
Definition parseInt (s : string) (radix : Z) : number :=
  let S0 := trimStart s in
  let sign := signOf S0 in
  let S1 := dropSign S0 in
  if negb (radix =? 0) && ((radix <? 2) || (36 <? radix)) then NaN
  else
    let stripPrefix := (radix =? 0) || (radix =? 16) in
    let R0 := if radix =? 0 then 10 else radix in
    let '(R, S2) :=
      if stripPrefix && hasHexPrefix S1 then (16, dropPrefix S1) else (R0, S1) in
    match digits R S2 None with
    | None => NaN
    | Some m => ofZ (sign * m)
    end.

End JS.

(** ** Completions and arrays *)

(** A call either returns a value or throws; the only exception the codec
    can raise is the TypeError of a property access on [undefined]. *)
Inductive completion (A : Type) : Type :=
| Return (a : A)
| Throw.
Arguments Return {A} a.
Arguments Throw {A}.

#[global] Instance completion_ret : MRet completion := @Return.
#[global] Instance completion_bind : MBind completion :=
  fun A B (k : A -> completion B) (c : completion A) =>
    match c with
    | Return a => k a
    | Throw => Throw
    end.

(** A JavaScript value that may be [undefined] is an [option]; reading a
    property of [undefined] throws. *)
Definition defined {A} (v : option A) : completion A :=
  match v with
  | Some a => Return a
  | None => Throw
  end.

Module Str.

(** [s.split(sep)] for a separator of one code unit. *)
Fixpoint split (sep : ascii) (s : string) : list string :=
  match s with
  | EmptyString => [""]
  | String c s' =>
      if Ascii.eqb c sep then "" :: split sep s'
      else match split sep s' with
           | h :: t => String c h :: t
           | [] => [String c ""]
           end
  end.

(** [a.join(sep)] *)
Fixpoint join (sep : string) (a : list string) : string :=
  match a with
  | [] => ""
  | [x] => x
  | x :: rest => x ++ sep ++ join sep rest
  end.

(** [a.slice(0, -1)], [a.slice(-1)] and [a.pop()] (its result only). *)
Definition slice_init {A} (a : list A) : list A := removelast a.
Definition slice_last {A} (a : list A) : list A :=
  match List.last (map Some a) None with
  | Some x => [x]
  | None => []
  end.
Definition pop {A} (a : list A) : option A := List.last (map Some a) None.

(** [s.startsWith(p)] *)
Definition startsWith (p s : string) : bool := String.prefix p s.

End Str.

(** ** The schema tables of [types.ts] *)

(** [Flags = Record<string, [number, number]>]: the entries in insertion
    order, which is the order [Object.entries] visits them in. *)
Definition Flags : Type := list (string * (Z * Z)).

Definition FLAGS_CAM_V2 : Flags :=
  [ ("resolution_index", (0, 7));
    ("tv_system", (7, 1));
    ("framerate", (8, 7));
    ("audio_index", (15, 2));
    ("ai_pd", (17, 1));
    ("ai_fd", (18, 1));
    ("ai_vd", (19, 1));
    ("ai_ad", (20, 1));
    ("encoder_type_index", (21, 2));
    ("is_schedule_record", (23, 1));
    ("is_motion_record", (24, 1));
    ("is_rf_record", (25, 1));
    ("is_doorbell_record", (26, 1));
    ("ai_other", (27, 1)) ].

Definition FLAGS_HUB_V0 : Flags :=
  [ ("resolution_index", (0, 7));
    ("tv_system", (7, 1));
    ("framerate", (8, 7));
    ("audio_index", (15, 2));
    ("ai_pd", (17, 1));
    ("ai_fd", (18, 1));
    ("ai_vd", (19, 1));
    ("ai_ad", (20, 1));
    ("encoder_type_index", (21, 2));
    ("is_schedule_record", (23, 1));
    ("is_motion_record", (24, 1));
    ("is_rf_record", (25, 1));
    ("is_doorbell_record", (26, 1));
    ("is_ai_other_record", (27, 1));
    ("picture_layout_index", (28, 7));
    ("package_delivered", (35, 1));
    ("package_takenaway", (36, 1)) ].

(** [{ ...FLAGS_HUB_V0, package_event: [37, 1] }]: the key is new, so the
    spread followed by the property appends it. *)
Definition FLAGS_HUB_V1 : Flags :=
  (FLAGS_HUB_V0 ++ [ ("package_event", (37, 1)) ])%list.

Definition FLAGS_HUB_V2 : Flags :=
  [ ("resolution_index", (0, 7));
    ("tv_system", (7, 1));
    ("framerate", (8, 7));
    ("audio_index", (15, 2));
    ("ai_pd", (17, 1));
    ("ai_fd", (18, 1));
    ("ai_vd", (19, 1));
    ("ai_ad", (20, 1));
    ("ai_other", (21, 2));
    ("encoder_type_index", (23, 1));
    ("is_schedule_record", (24, 1));
    ("is_motion_record", (25, 1));
    ("is_rf_record", (26, 1));
    ("is_doorbell_record", (27, 1));
    ("picture_layout_index", (28, 7));
    ("package_delivered", (35, 1));
    ("package_takenaway", (36, 1));
    ("package_event", (37, 1));
    ("upload_flag", (38, 1)) ].

(** [devType] only ever holds one of the two literals ["cam"] and ["hub"]. *)
Inductive DevType : Type := cam | hub.

Definition FLAGS_LENGTH (devType : DevType) : gmap Z Z :=
  match devType with
  | cam => <[2 := 7]> (<[3 := 7]> (<[4 := 9]> (<[9 := 14]> ∅)))
  | hub => <[2 := 10]> ∅
  end.

Definition FLAGS_MAPPING (devType : DevType) : gmap Z Flags :=
  match devType with
  | cam => <[2 := FLAGS_CAM_V2]> (<[3 := FLAGS_CAM_V2]>
           (<[4 := FLAGS_CAM_V2]> (<[9 := FLAGS_CAM_V2]> ∅)))
  | hub => <[0 := FLAGS_HUB_V0]> (<[1 := FLAGS_HUB_V1]> (<[2 := FLAGS_HUB_V2]> ∅))
  end.

(** [o[k]] and [o.hasOwnProperty(k)] for a table keyed by integers and a
    number [k]: the key of [Fin z] is the numeral of [z]; the keys of NaN
    and of the infinities are no numerals, so no table has them. *)
Definition getProp {V} (o : gmap Z V) (k : JS.number) : option V :=
  match k with
  | JS.Fin z => o !! z
  | _ => None
  end.

Definition hasOwnProperty {V} (o : gmap Z V) (k : JS.number) : bool :=
  match getProp o k with
  | Some _ => true
  | None => false
  end.

(** [Object.keys(o).map(Number)] *)
Definition keyNumbers {V} (o : gmap Z V) : list JS.number :=
  map (fun kv => JS.Fin (fst kv)) (map_to_list o).

(** ** [decodeHexToFlags] *)

(** The body of the loop over the schema's entries (lines 9-11): the value
    stored for one flag. *)
Definition decodeFlag (hexIntRev bitPosition bitSize : JS.number) : JS.number :=
  let mask := JS.shl (JS.sub (JS.shl (JS.Fin 1) bitSize) (JS.Fin 1)) bitPosition in
  let flagValRev := JS.sar (JS.band hexIntRev mask) bitPosition in
  JS.parseInt (JS.reverse (JS.padStart0 (JS.toString2 flagValRev) bitSize)) 2.

(** The reversed payload (lines 4-5). *)
Definition reversePayload (hexValue : string) : JS.number :=
  let hexInt := JS.parseInt hexValue 16 in
  JS.parseInt
    (JS.reverse (JS.padStart0 (JS.toString2 hexInt)
                              (JS.mul (JS.length hexValue) (JS.Fin 4)))) 2.

Definition decodeHexToFlags (hexValue : string) (version : JS.number)
    (devType : DevType) : completion (gmap string JS.number) :=
  let hexIntRev := reversePayload hexValue in
  flags ← defined (getProp (FLAGS_MAPPING devType) version);
  Return
    (fold_left
       (fun (flagValues : gmap string JS.number) (entry : string * (Z * Z)) =>
          let '(flag, (bitPosition, bitSize)) := entry in
          <[flag := decodeFlag hexIntRev (JS.Fin bitPosition) (JS.Fin bitSize)]>
            flagValues)
       flags ∅).

(** ** [parseFileName] *)

(** The calls made on the [console] argument, in order.  A message built by
    a template literal is kept as its template and the values spliced in. *)
Inductive Message : Type :=
| NoVersion (fileName : string)
    (* `${fileName} does not match known formats, could not find version` *)
| UnknownLength (fileName : string)
    (* `${fileName} does not match known formats, unknown length` *)
| UnknownVersion (fileName : string) (version hexLength newVersion : JS.number)
    (* `... has version ..., with hex length ... which is not yet known,
        using version ... instead` *)
| UnexpectedHexLength (fileName : string) (version hexLength expected : JS.number).
    (* `... with version ... has unexpected hex length ..., expected ...` *)

Inductive ConsoleCall : Type :=
| console_debug (m : Message)
| console_log (hexValue : string) (version : JS.number) (devType : DevType)
    (flagValues : gmap string JS.number).

(** The returned object [{ detectionClasses }]. *)
Record Parsed : Type := { detectionClasses : list string }.

(** Line 23-24: the last path segment of the name without its extension. *)
Definition stem (fileName : string) : completion string :=
  let parts := Str.split "." fileName in
  let arr :=
    (map Some (Str.slice_last (Str.split "/" (Str.join "." (Str.slice_init parts))))
       ++ [Str.pop parts])%list in
  pathName ← defined (mjoin (arr !! 0%nat));
  defined (Str.pop (Str.split "/" pathName)).

(** Line 27: the header test on [split[0]]. *)
Definition headerOk (tok0 : string) : bool :=
  Str.startsWith "Rec" tok0 && (String.length tok0 =? 6)%nat.

(** The local variables after line 56.  An element read from [split] may be
    [undefined]. *)
Record Locals : Type := {
  version : JS.number;
  devType : DevType;
  startDate : option string;
  startTime : option string;
  endTime : option string;
  hexValue : option string;
  fileSize : option string
}.

(** Lines 25-56: splitting the stem and picking the tokens.  [None] is the
    early [return null]. *)
Definition tokenize (fileName name : string)
  : list ConsoleCall * completion (option Locals) :=
  let split := Str.split "_" name in
  match split !! 0%nat with
  | None => ([], Throw)
  | Some tok0 =>
      if negb (Str.startsWith "Rec" tok0) || negb (String.length tok0 =? 6)%nat
      then ([console_debug (NoVersion fileName)], Return None)
      else
        let version :=
          JS.parseInt (match String.get 5 tok0 with
                       | Some c => String c ""
                       | None => "undefined"
                       end) 0 in
        if (List.length split =? 6)%nat then
          ([], Return (Some {| version := version; devType := cam;
                               startDate := split !! 1%nat;
                               startTime := split !! 2%nat;
                               endTime := split !! 3%nat;
                               hexValue := split !! 4%nat;
                               fileSize := split !! 5%nat |}))
        else if (List.length split =? 9)%nat then
          ([], Return (Some {| version := version; devType := hub;
                               startDate := split !! 1%nat;
                               startTime := split !! 2%nat;
                               endTime := split !! 3%nat;
                               hexValue := split !! 7%nat;
                               fileSize := split !! 8%nat |}))
        else ([console_debug (UnknownLength fileName)], Return None)
  end.

(** Lines 58-62: the version used for decoding, and the warning when it is
    not the one of the file name. *)
Definition resolveVersion (fileName : string) (devType : DevType)
    (version hexLength : JS.number) : list ConsoleCall * JS.number :=
  if negb (hasOwnProperty (FLAGS_MAPPING devType) version) then
    let newVersion := JS.Math_max (keyNumbers (FLAGS_MAPPING devType)) in
    ([console_debug (UnknownVersion fileName version hexLength newVersion)],
     newVersion)
  else ([], version).

(** [FLAGS_LENGTH[devType][version] || 0] *)
Definition expectedLength (devType : DevType) (version : JS.number) : JS.number :=
  match getProp (FLAGS_LENGTH devType) version with
  | Some n => if JS.truthy (JS.Fin n) then JS.Fin n else JS.Fin 0
  | None => JS.Fin 0
  end.

(** [a !== b] on numbers: NaN differs from everything. *)
Definition strictNe (a b : JS.number) : bool :=
  match a, b with
  | JS.Fin x, JS.Fin y => negb (x =? y)
  | JS.Infinity s, JS.Infinity t => negb (Bool.eqb s t)
  | _, _ => true
  end.

(** Lines 64-66: the length diagnostic. *)
Definition checkLength (fileName : string) (devType : DevType)
    (version hexLength : JS.number) : list ConsoleCall :=
  if strictNe hexLength (expectedLength devType version)
  then [console_debug (UnexpectedHexLength fileName version hexLength
                         (expectedLength devType version))]
  else [].

(** [flagValues[key]] used as a condition: a missing property reads as
    [undefined], which is falsy. *)
Definition flagSet (flagValues : gmap string JS.number) (key : string) : bool :=
  match flagValues !! key with
  | Some v => JS.truthy v
  | None => false
  end.

(** [if (cond) detectionClasses.push(c)] *)
Definition pushIf (cond : bool) (c : string) (detectionClasses : list string)
  : list string :=
  if cond then (detectionClasses ++ [c])%list else detectionClasses.

(** Lines 71-87: the detection classes, pushed one after the other onto an
    array that starts empty. *)
Definition classify (flagValues : gmap string JS.number) : list string :=
  let detectionClasses := [] in
  let detectionClasses := pushIf (flagSet flagValues "ai_pd") "person" detectionClasses in
  let detectionClasses := pushIf (flagSet flagValues "ai_vd") "vehicle" detectionClasses in
  let detectionClasses := pushIf (flagSet flagValues "ai_ad") "animal" detectionClasses in
  let detectionClasses :=
    pushIf (flagSet flagValues "is_motion_record") "motion" detectionClasses in
  let detectionClasses :=
    pushIf (flagSet flagValues "package_event") "package" detectionClasses in
  pushIf (List.length detectionClasses =? 0)%nat "motion" detectionClasses.

(** Lines 58-95, from the local variables on. *)
Definition decodeTokens (fileName : string) (t : Locals)
  : list ConsoleCall * completion (option Parsed) :=
  match hexValue t with
  | None => ([], Throw)
  | Some hex =>
      let '(log1, version') :=
        resolveVersion fileName (devType t) (version t) (JS.length hex) in
      let log2 := checkLength fileName (devType t) version' (JS.length hex) in
      match decodeHexToFlags hex version' (devType t) with
      | Throw => ((log1 ++ log2)%list, Throw)
      | Return flagValues =>
          ((log1 ++ log2 ++ [console_log hex version' (devType t) flagValues])%list,
           Return (Some {| detectionClasses := classify flagValues |}))
      end
  end.

(** [parseFileName(fileName, console)]: the console calls and the
    completion; [Return None] is [return null]. *)
Definition parseFileName (fileName : string)
  : list ConsoleCall * completion (option Parsed) :=
  match stem fileName with
  | Throw => ([], Throw)
  | Return name =>
      match tokenize fileName name with
      | (log0, Return (Some t)) =>
          let '(log, r) := decodeTokens fileName t in ((log0 ++ log)%list, r)
      | (log0, Return None) => (log0, Return None)
      | (log0, Throw) => (log0, Throw)
      end
  end.

Definition outcome (fileName : string) := snd (parseFileName fileName).


(** ** The decoder as the specification words it

    Section 4.2 of the specification describes the bit decoder over
    unbounded unsigned integers and bit strings.  These definitions follow
    that text and are compared with [decodeHexToFlags] below. *)

Module Spec.

Definition hexDigit (c : ascii) : Z :=
  match c with
  | "0" => 0 | "1" => 1 | "2" => 2 | "3" => 3 | "4" => 4
  | "5" => 5 | "6" => 6 | "7" => 7 | "8" => 8 | "9" => 9
  | "a" | "A" => 10 | "b" | "B" => 11 | "c" | "C" => 12
  | "d" | "D" => 13 | "e" | "E" => 14 | "f" | "F" => 15
  | _ => 0
  end%char.

Definition isHexDigit (c : ascii) : bool :=
  match c with
  | "0" | "1" | "2" | "3" | "4" | "5" | "6" | "7" | "8" | "9"
  | "a" | "A" | "b" | "B" | "c" | "C" | "d" | "D" | "e" | "E" | "f" | "F" => true
  | _ => false
  end%char.

(** A hexadecimal payload: hexadecimal digits only. *)
Definition isHex (payload : string) : bool :=
  forallb isHexDigit (list_ascii_of_string payload).

(** Step 1: the payload as a base-16 unsigned integer. *)
Definition parse16 (payload : string) : Z :=
  fold_left (fun acc c => 16 * acc + hexDigit c) (list_ascii_of_string payload) 0.

(** A binary string, most significant bit first: [n] rendered on exactly
    [width] bits, and the value of a bit string. *)
Definition render (width : nat) (n : Z) : list bool :=
  rev (map (fun i => Z.testbit n (Z.of_nat i)) (seq 0 width)).

Definition parse2 (bits : list bool) : Z :=
  fold_left (fun acc b => 2 * acc + Z.b2z b) bits 0.

(** Step 2: the payload reversed as a string of [4 * len] bits. *)
Definition raw_rev (payload : string) : Z :=
  parse2 (rev (render (4 * String.length payload) (parse16 payload))).

(** Step 3: the segment of a field by mask and shift. *)
Definition segment (n bit_offset bit_width : Z) : Z :=
  let mask := Z.shiftl (Z.shiftl 1 bit_width - 1) bit_offset in
  Z.shiftr (Z.land n mask) bit_offset.

(** Step 4: the segment reversed on [bit_width] bits. *)
Definition decode_field (payload : string) (bit_offset bit_width : Z) : Z :=
  let segment_rev := segment (raw_rev payload) bit_offset bit_width in
  parse2 (rev (render (Z.to_nat bit_width) segment_rev)).

(** The extractions the double reversal is contrasted with: no reversal at
    all, and one reversal only, of the payload or of the field. *)
Definition no_reversal (payload : string) (bit_offset bit_width : Z) : Z :=
  segment (parse16 payload) bit_offset bit_width.

Definition payload_reversal_only (payload : string) (bit_offset bit_width : Z) : Z :=
  segment (raw_rev payload) bit_offset bit_width.

Definition field_reversal_only (payload : string) (bit_offset bit_width : Z) : Z :=
  parse2 (rev (render (Z.to_nat bit_width)
                      (segment (parse16 payload) bit_offset bit_width))).

(** The bit-offset formula: bit [i] of the reversed payload is bit
    [4 * len - 1 - i] of the payload. *)
Definition formula_bit (payload : string) (i : Z) : Z :=
  Z.b2z (Z.testbit (parse16 payload) (4 * Z.of_nat (String.length payload) - 1 - i)).

(** A synthetic payload of [len] hexadecimal digits whose bit string has
    the bits of one field all set and every other bit clear. *)
Fixpoint hexString (len : nat) (n : Z) (acc : string) : string :=
  match len with
  | O => acc
  | S len' =>
      let d := Z.land n 15 in
      let c := ascii_of_N (Z.to_N (if d <? 10 then 48 + d else 55 + d)) in
      hexString len' (Z.shiftr n 4) (String c acc)
  end.

Definition synthetic (len : nat) (bit_offset bit_width : Z) : string :=
  hexString len
    (Z.shiftl (Z.ones bit_width) (4 * Z.of_nat len - bit_offset - bit_width)) "".

End Spec.

(** ** Auxiliary definitions of the statements *)

(** The highest version registered for a family in [FLAGS_MAPPING]. *)
Definition highest (devType : DevType) : Z :=
  match devType with
  | cam => 9
  | hub => 2
  end.

(** A bit string as JavaScript text. *)
Definition bitChar (b : bool) : ascii := if b then "1"%char else "0"%char.

Definition bitString (bits : list bool) : string :=
  string_of_list_ascii (map bitChar bits).

(** A schema entry whose decoded value always fits its declared width. *)
Definition fieldInRange (entry : string * (Z * Z)) : Prop :=
  forall hexIntRev, exists v,
    decodeFlag hexIntRev (JS.Fin (fst (snd entry))) (JS.Fin (snd (snd entry)))
      = JS.Fin v /\ 0 <= v < 2 ^ snd (snd entry).

(** The loop of lines 8-12 as a fold over the entries, for any way [g] of
    computing the value of a field from its position and size. *)
Definition storeFlags (g : Z -> Z -> JS.number) (flags : Flags)
    (init : gmap string JS.number) : gmap string JS.number :=
  fold_left
    (fun (flagValues : gmap string JS.number) (entry : string * (Z * Z)) =>
       let '(flag, (bitPosition, bitSize)) := entry in
       <[flag := g bitPosition bitSize]> flagValues)
    flags init.

(** The value [decodeHexToFlags] stores under one name, [None] when the
    call throws or the name is not a key of the result. *)
Definition decoded (hexValue : string) (version : JS.number) (devType : DevType)
    (name : string) : option JS.number :=
  match decodeHexToFlags hexValue version devType with
  | Return flagValues => flagValues !! name
  | Throw => None
  end.

(** The round-trip test of the bit decoder on one schema: for every field,
    the synthetic payload of [len] digits that sets just that field is
    decoded to the field's maximum at that field and to zero elsewhere. *)
Definition roundTrip (devType : DevType) (version : Z) (len : nat) : bool :=
  match FLAGS_MAPPING devType !! version with
  | None => false
  | Some flags =>
      forallb
        (fun field : string * (Z * Z) =>
           let '(name, (off, w)) := field in
           match decodeHexToFlags (Spec.synthetic len off w) (JS.Fin version)
                                  devType with
           | Throw => false
           | Return flagValues =>
               forallb
                 (fun other : string * (Z * Z) =>
                    match flagValues !! fst other with
                    | Some (JS.Fin v) =>
                        v =? (if String.eqb name (fst other) then 2 ^ w - 1 else 0)
                    | _ => false
                    end)
                 flags
           end)
        flags
  end.

(** The four detection bits of the pinned regression vector, with their
    offsets in the camera schema. *)
Definition pinnedFields : list (string * Z) :=
  [("ai_pd", 17); ("ai_fd", 18); ("ai_vd", 19); ("ai_ad", 20)].

(** ** The trigger flags of [types.ts] *)

(** [enum VODTrigger]: the members and their values, computed as the
    initializers are. *)
Inductive VODTrigger : Type :=
| NONE | TIMER | MOTION | VEHICLE | ANIMAL | PERSON | DOORBELL | PACKAGE.

Definition VODTrigger_value (t : VODTrigger) : JS.number :=
  match t with
  | NONE => JS.Fin 0
  | TIMER => JS.shl (JS.Fin 1) (JS.Fin 0)
  | MOTION => JS.shl (JS.Fin 1) (JS.Fin 1)
  | VEHICLE => JS.shl (JS.Fin 1) (JS.Fin 2)
  | ANIMAL => JS.shl (JS.Fin 1) (JS.Fin 3)
  | PERSON => JS.shl (JS.Fin 1) (JS.Fin 4)
  | DOORBELL => JS.shl (JS.Fin 1) (JS.Fin 5)
  | PACKAGE => JS.shl (JS.Fin 1) (JS.Fin 6)
  end.

(** The entries of a schema tile the bits from [start] on: each field
    starts where the one before it ends and is at least one bit wide. *)
Fixpoint tiles (start : Z) (flags : Flags) : bool :=
  match flags with
  | [] => true
  | (_, (off, w)) :: rest => (off =? start) && (0 <? w) && tiles (off + w) rest
  end.

(** The number of bits a schema declares. *)
Definition declaredBits (flags : Flags) : Z :=
  fold_right (fun entry acc => snd (snd entry) + acc) 0 flags.

(** * Properties *)

(** ** Splitting and the stem *)

Section Splitting.

Lemma split_cons (sep : ascii) (s : string) :
  exists tok0 rest, Str.split sep s = tok0 :: rest.
Proof.
  destruct s as [| c s]; simpl; [eauto |].
  destruct (Ascii.eqb c sep); [eauto |].
  destruct (Str.split sep s); eauto.
Qed.

Lemma split_no_sep (sep : ascii) (s : string) :
  ~ In sep (list_ascii_of_string s) -> Str.split sep s = [s].
Proof.
  induction s as [| c s IH]; simpl; intros Hnot; [reflexivity |].
  destruct (Ascii.eqb_spec c sep) as [-> | _].
  - exfalso. apply Hnot. now left.
  - rewrite IH; [reflexivity | intros Hin; apply Hnot; now right].
Qed.

Lemma pop_cons {A} (x : A) (l : list A) : exists y, Str.pop (x :: l) = Some y.
Proof.
  unfold Str.pop. revert x. induction l as [| z l IH]; intros x; simpl; [eauto |].
  apply (IH z).
Qed.

Lemma slice_last_cons {A} (x : A) (l : list A) :
  exists y, Str.slice_last (x :: l) = [y].
Proof.
  unfold Str.slice_last. destruct (pop_cons x l) as [y Hy].
  unfold Str.pop in Hy. rewrite Hy. eauto.
Qed.

(** The stem is always computed: no step of line 23-24 reads a property of
    [undefined]. *)
Lemma stem_total (fileName : string) : exists name, stem fileName = Return name.
Proof.
  unfold stem.
  destruct (split_cons "/" (Str.join "." (Str.slice_init (Str.split "." fileName))))
    as (x & l & ->).
  destruct (slice_last_cons x l) as (pathName & ->). simpl.
  destruct (split_cons "/" pathName) as (y & l' & ->).
  destruct (pop_cons y l') as (name & ->). simpl. eauto.
Qed.

Lemma stem_no_dot (fileName : string) :
  ~ In "."%char (list_ascii_of_string fileName) -> stem fileName = Return "".
Proof.
  intros Hnot. unfold stem. rewrite (split_no_sep _ _ Hnot). reflexivity.
Qed.

End Splitting.

(** ** The registry and the version fallback *)

Section Registry.

Lemma highest_registered (devType : DevType) :
  is_Some (FLAGS_MAPPING devType !! highest devType).
Proof. destruct devType; vm_compute; eauto. Qed.

Lemma highest_is_max (devType : DevType) (k : Z) :
  is_Some (FLAGS_MAPPING devType !! k) -> k <= highest devType.
Proof.
  intros [flags Hk]. destruct devType; unfold FLAGS_MAPPING, highest in *.
  - repeat (rewrite lookup_insert in Hk; case_decide; [lia |]).
    rewrite lookup_empty in Hk. discriminate.
  - repeat (rewrite lookup_insert in Hk; case_decide; [lia |]).
    rewrite lookup_empty in Hk. discriminate.
Qed.

Lemma Math_max_keys (devType : DevType) :
  JS.Math_max (keyNumbers (FLAGS_MAPPING devType)) = JS.Fin (highest devType).
Proof. destruct devType; vm_compute; reflexivity. Qed.

Lemma hasOwnProperty_getProp {V} (o : gmap Z V) (k : JS.number) :
  hasOwnProperty o k = true <-> is_Some (getProp o k).
Proof.
  unfold hasOwnProperty. destruct (getProp o k); split; intros H; eauto.
  - discriminate.
  - destruct H; discriminate.
Qed.

Lemma resolveVersion_known fileName devType version hexLength :
  hasOwnProperty (FLAGS_MAPPING devType) version = true ->
  resolveVersion fileName devType version hexLength = ([], version).
Proof. intros H. unfold resolveVersion. now rewrite H. Qed.

Lemma resolveVersion_unknown fileName devType version hexLength :
  hasOwnProperty (FLAGS_MAPPING devType) version = false ->
  resolveVersion fileName devType version hexLength =
    ([console_debug (UnknownVersion fileName version hexLength
                       (JS.Fin (highest devType)))],
     JS.Fin (highest devType)).
Proof. intros H. unfold resolveVersion. now rewrite H, Math_max_keys. Qed.

(** Whatever the version of the file name, the version handed to the
    decoder is registered. *)
Lemma resolveVersion_registered fileName devType version hexLength :
  is_Some (getProp (FLAGS_MAPPING devType)
             (snd (resolveVersion fileName devType version hexLength))).
Proof.
  destruct (hasOwnProperty (FLAGS_MAPPING devType) version) eqn:H.
  - rewrite resolveVersion_known by assumption. now apply hasOwnProperty_getProp.
  - rewrite resolveVersion_unknown by assumption. apply highest_registered.
Qed.

End Registry.

(** ** Totality *)

Section Totality.

(** With a registered version the decoder returns: the only property read
    that can throw is the one of the schema. *)
Lemma decodeHexToFlags_returns hexValue version devType :
  is_Some (getProp (FLAGS_MAPPING devType) version) ->
  exists flagValues, decodeHexToFlags hexValue version devType = Return flagValues.
Proof.
  intros [flags Hflags]. unfold decodeHexToFlags. rewrite Hflags. simpl. eauto.
Qed.

Lemma decodeTokens_returns fileName (t : Locals) hex :
  hexValue t = Some hex ->
  exists log flagValues,
    decodeTokens fileName t =
      (log, Return (Some {| detectionClasses := classify flagValues |})).
Proof.
  intros Hhex. unfold decodeTokens. rewrite Hhex.
  pose proof (resolveVersion_registered fileName (devType t) (version t)
                (JS.length hex)) as Hreg.
  destruct (resolveVersion fileName (devType t) (version t) (JS.length hex))
    as [log1 version'].
  destruct (decodeHexToFlags_returns hex version' (devType t) Hreg) as [fv ->].
  eauto.
Qed.

End Totality.

(** ** The tokenizer and the failure cases *)

Section Tokenizer.

(** C10.  A file name without a ['.'] is refused: stripping the extension
    leaves the empty stem, whose only token is the empty string, which does
    not start with ["Rec"]; [parseFileName] reports it and returns [null],
    whatever the underscore structure of the name. *)
Theorem parseFileName_no_dot (fileName : string) :
  ~ In "."%char (list_ascii_of_string fileName) ->
  parseFileName fileName = ([console_debug (NoVersion fileName)], Return None).
Proof.
  intros Hnot. unfold parseFileName. rewrite (stem_no_dot _ Hnot). reflexivity.
Qed.

Lemma parseFileName_no_dot_witness :
  ~ In "."%char (list_ascii_of_string "RecM01_20201222_075939_080140_6D28808_1A468F9")
  /\ parseFileName "RecM01_20201222_075939_080140_6D28808_1A468F9" =
       ([console_debug (NoVersion "RecM01_20201222_075939_080140_6D28808_1A468F9")],
        Return None).
Proof.
  assert (H : ~ In "."%char
                (list_ascii_of_string "RecM01_20201222_075939_080140_6D28808_1A468F9")).
  { simpl. intros H. repeat (destruct H as [H | H]; [discriminate H |]). exact H. }
  split; [exact H | exact (parseFileName_no_dot _ H)].
Defined.

(** What [tokenize] does in each of its four cases. *)
Lemma tokenize_bad_header fileName name tok0 rest :
  Str.split "_" name = tok0 :: rest ->
  headerOk tok0 = false ->
  tokenize fileName name = ([console_debug (NoVersion fileName)], Return None).
Proof.
  intros Hsplit Hhead. unfold tokenize. rewrite Hsplit. simpl.
  unfold headerOk in Hhead. rewrite <- negb_andb, Hhead. reflexivity.
Qed.

Lemma tokenize_bad_count fileName name tok0 rest :
  Str.split "_" name = tok0 :: rest ->
  headerOk tok0 = true ->
  List.length (tok0 :: rest) <> 6%nat -> List.length (tok0 :: rest) <> 9%nat ->
  tokenize fileName name = ([console_debug (UnknownLength fileName)], Return None).
Proof.
  intros Hsplit Hhead H6 H9. unfold tokenize. rewrite Hsplit.
  change ((tok0 :: rest) !! 0%nat) with (Some tok0). cbv beta iota.
  unfold headerOk in Hhead. rewrite <- negb_andb, Hhead. cbv beta iota.
  apply Nat.eqb_neq in H6, H9. rewrite H6, H9. reflexivity.
Qed.

Lemma tokenize_six fileName name tok0 rest :
  Str.split "_" name = tok0 :: rest ->
  headerOk tok0 = true ->
  List.length (tok0 :: rest) = 6%nat ->
  exists t hex size,
    tokenize fileName name = ([], Return (Some t)) /\
    devType t = cam /\
    (tok0 :: rest) !! 4%nat = Some hex /\ hexValue t = Some hex /\
    (tok0 :: rest) !! 5%nat = Some size /\ fileSize t = Some size.
Proof.
  intros Hsplit Hhead Hlen. unfold tokenize. rewrite Hsplit.
  change ((tok0 :: rest) !! 0%nat) with (Some tok0). cbv beta iota.
  unfold headerOk in Hhead. rewrite <- negb_andb, Hhead. cbv beta iota.
  rewrite Hlen. change (6 =? 6)%nat with true. cbv beta iota.
  destruct rest as [| a [| b [| c [| d [| e [| f rest]]]]]]; try discriminate Hlen.
  eexists _, d, e. repeat split; reflexivity.
Qed.

Lemma tokenize_nine fileName name tok0 rest :
  Str.split "_" name = tok0 :: rest ->
  headerOk tok0 = true ->
  List.length (tok0 :: rest) = 9%nat ->
  exists t hex size,
    tokenize fileName name = ([], Return (Some t)) /\
    devType t = hub /\
    (tok0 :: rest) !! 7%nat = Some hex /\ hexValue t = Some hex /\
    (tok0 :: rest) !! 8%nat = Some size /\ fileSize t = Some size.
Proof.
  intros Hsplit Hhead Hlen. unfold tokenize. rewrite Hsplit.
  change ((tok0 :: rest) !! 0%nat) with (Some tok0). cbv beta iota.
  unfold headerOk in Hhead. rewrite <- negb_andb, Hhead. cbv beta iota.
  rewrite Hlen. change (9 =? 6)%nat with false. change (9 =? 9)%nat with true.
  cbv beta iota.
  destruct rest as [| a [| b [| c [| d [| e [| f [| g [| h [| i rest]]]]]]]]];
    try discriminate Hlen.
  eexists _, g, h. repeat split; reflexivity.
Qed.

Lemma parseFileName_of_tokenize fileName name log0 t :
  stem fileName = Return name ->
  tokenize fileName name = (log0, Return (Some t)) ->
  parseFileName fileName =
    ((log0 ++ fst (decodeTokens fileName t))%list, snd (decodeTokens fileName t)).
Proof.
  intros Hstem Htok. unfold parseFileName. rewrite Hstem, Htok.
  now destruct (decodeTokens fileName t).
Qed.

(** C3.  [parseFileName] returns [null] exactly when the first token of the
    stem does not start with ["Rec"] or is not 6 code units long, or the
    stem has neither 6 nor 9 tokens; on every other file name, whatever its
    version digit and the length of its payload, it returns a result. *)
Theorem parseFileName_null_iff (fileName : string) :
  exists name tok0 rest,
    stem fileName = Return name /\
    Str.split "_" name = tok0 :: rest /\
    (outcome fileName = Return None <->
       (Str.startsWith "Rec" tok0 = false \/ String.length tok0 <> 6%nat \/
        (List.length (tok0 :: rest) <> 6%nat /\ List.length (tok0 :: rest) <> 9%nat))) /\
    (outcome fileName <> Return None ->
       exists parsed, outcome fileName = Return (Some parsed)).
Proof.
  destruct (stem_total fileName) as [name Hstem].
  destruct (split_cons "_" name) as (tok0 & rest & Hsplit).
  exists name, tok0, rest. split; [assumption |]. split; [assumption |].
  assert (Hbad : forall log, tokenize fileName name = (log, Return None) ->
                             outcome fileName = Return None).
  { intros log H. unfold outcome, parseFileName. now rewrite Hstem, H. }
  assert (Hgood : forall t hex, tokenize fileName name = ([], Return (Some t)) ->
                    hexValue t = Some hex ->
                    exists parsed, outcome fileName = Return (Some parsed)).
  { intros t hex H Hhex. unfold outcome.
    rewrite (parseFileName_of_tokenize _ _ _ _ Hstem H).
    destruct (decodeTokens_returns fileName t hex Hhex) as (log & fv & ->).
    simpl. eauto. }
  destruct (headerOk tok0) eqn:Hhead.
  - assert (Hrec : Str.startsWith "Rec" tok0 = true /\ String.length tok0 = 6%nat).
    { unfold headerOk in Hhead. apply andb_prop in Hhead as [H1 H2].
      apply Nat.eqb_eq in H2. now split. }
    destruct Hrec as [Hrec Hsix].
    destruct (Nat.eq_dec (List.length (tok0 :: rest)) 6%nat) as [H6 | H6];
      [| destruct (Nat.eq_dec (List.length (tok0 :: rest)) 9%nat) as [H9 | H9]].
    + destruct (tokenize_six fileName name tok0 rest Hsplit Hhead H6)
        as (t & hex & size & Htok & _ & _ & Hhex & _).
      destruct (Hgood t hex Htok Hhex) as [parsed Hout].
      split; [| eauto]. rewrite Hout. split; [discriminate |].
      intros [H | [H | [H _]]]; congruence.
    + destruct (tokenize_nine fileName name tok0 rest Hsplit Hhead H9)
        as (t & hex & size & Htok & _ & _ & Hhex & _).
      destruct (Hgood t hex Htok Hhex) as [parsed Hout].
      split; [| eauto]. rewrite Hout. split; [discriminate |].
      intros [H | [H | [_ H]]]; congruence.
    + pose proof (Hbad _ (tokenize_bad_count fileName name tok0 rest
                            Hsplit Hhead H6 H9)) as Hout.
      split; [| congruence]. split; auto.
  - pose proof (Hbad _ (tokenize_bad_header fileName name tok0 rest Hsplit Hhead))
      as Hout.
    split; [| congruence]. split; [| intros _; exact Hout]. intros _.
    unfold headerOk in Hhead. apply andb_false_iff in Hhead as [H | H].
    + now left.
    + right; left. now apply Nat.eqb_neq.
Qed.

End Tokenizer.

(** ** The token layout *)

Section Layout.

Lemma decodeTokens_log fileName (t : Locals) hex :
  hexValue t = Some hex ->
  exists log v flagValues,
    fst (decodeTokens fileName t) =
      (log ++ [console_log hex v (devType t) flagValues])%list.
Proof.
  intros Hhex. unfold decodeTokens. rewrite Hhex.
  pose proof (resolveVersion_registered fileName (devType t) (version t)
                (JS.length hex)) as Hreg.
  destruct (resolveVersion fileName (devType t) (version t) (JS.length hex))
    as [log1 version'].
  destruct (decodeHexToFlags_returns hex version' (devType t) Hreg) as [fv ->].
  simpl. exists (log1 ++ checkLength fileName (devType t) version' (JS.length hex))%list.
  exists version', fv. now rewrite <- app_assoc.
Qed.

(** C7.  The tokens are picked by the token count of the stem: when the
    tokenizer delivers its local variables for a stem of 6 tokens the
    family is ["cam"], the payload is token 4 and the file size token 5;
    for a stem of 9 tokens the family is ["hub"], the payload is token 7
    and the file size token 8.  The tokenizer does deliver them for every
    such stem whose first token passes the header test of line 27, and the
    payload and family it picked are the ones [parseFileName] decodes
    with, as its [console.log] call shows. *)
Theorem tokens_by_count (fileName name : string) (tokens : list string) :
  stem fileName = Return name ->
  Str.split "_" name = tokens ->
  (forall log t,
     tokenize fileName name = (log, Return (Some t)) ->
     (List.length tokens = 6%nat ->
        devType t = cam /\
        is_Some (tokens !! 4%nat) /\ hexValue t = tokens !! 4%nat /\
        is_Some (tokens !! 5%nat) /\ fileSize t = tokens !! 5%nat) /\
     (List.length tokens = 9%nat ->
        devType t = hub /\
        is_Some (tokens !! 7%nat) /\ hexValue t = tokens !! 7%nat /\
        is_Some (tokens !! 8%nat) /\ fileSize t = tokens !! 8%nat)) /\
  (headerOk (hd "" tokens) = true ->
   List.length tokens = 6%nat \/ List.length tokens = 9%nat ->
   exists t hex calls v flagValues,
     tokenize fileName name = ([], Return (Some t)) /\
     hexValue t = Some hex /\
     fst (parseFileName fileName) =
       (calls ++ [console_log hex v (devType t) flagValues])%list).
Proof.
  intros Hstem <-.
  destruct (split_cons "_" name) as (tok0 & rest & Hsplit).
  rewrite Hsplit. simpl hd.
  split.
  - intros log t Ht.
    destruct (headerOk tok0) eqn:Hhead.
    2:{ rewrite (tokenize_bad_header _ _ _ _ Hsplit Hhead) in Ht. discriminate. }
    split; intros Hlen.
    + destruct (tokenize_six fileName name tok0 rest Hsplit Hhead Hlen)
        as (t' & hex & size & Ht' & Hdev & H4 & Hhex & H5 & Hsize).
      rewrite Ht' in Ht. injection Ht as _ <-.
      rewrite H4, H5. repeat split; eauto.
    + destruct (tokenize_nine fileName name tok0 rest Hsplit Hhead Hlen)
        as (t' & hex & size & Ht' & Hdev & H7 & Hhex & H8 & Hsize).
      rewrite Ht' in Ht. injection Ht as _ <-.
      rewrite H7, H8. repeat split; eauto.
  - intros Hhead Hlen.
    assert (Ht : exists t hex, tokenize fileName name = ([], Return (Some t)) /\
                               hexValue t = Some hex).
    { destruct Hlen as [Hlen | Hlen].
      - destruct (tokenize_six fileName name tok0 rest Hsplit Hhead Hlen)
          as (t & hex & size & Ht & _ & _ & Hhex & _). eauto.
      - destruct (tokenize_nine fileName name tok0 rest Hsplit Hhead Hlen)
          as (t & hex & size & Ht & _ & _ & Hhex & _). eauto. }
    destruct Ht as (t & hex & Ht & Hhex).
    destruct (decodeTokens_log fileName t hex Hhex) as (calls & v & fv & Hlog).
    exists t, hex, calls, v, fv. repeat split; try assumption.
    rewrite (parseFileName_of_tokenize _ _ _ _ Hstem Ht). simpl. exact Hlog.
Qed.

Lemma tokens_by_count_witness :
  stem "Mp4Record/2024-08-27/RecM02_DST20240827_090302_090334_0_800_800_033C820000_61B6F0.mp4"
    = Return "RecM02_DST20240827_090302_090334_0_800_800_033C820000_61B6F0" /\
  exists t hex calls v flagValues,
    tokenize
      "Mp4Record/2024-08-27/RecM02_DST20240827_090302_090334_0_800_800_033C820000_61B6F0.mp4"
      "RecM02_DST20240827_090302_090334_0_800_800_033C820000_61B6F0"
      = ([], Return (Some t)) /\
    hexValue t = Some hex /\
    fst (parseFileName
           "Mp4Record/2024-08-27/RecM02_DST20240827_090302_090334_0_800_800_033C820000_61B6F0.mp4")
      = (calls ++ [console_log hex v (devType t) flagValues])%list.
Proof.
  assert (Hstem :
    stem "Mp4Record/2024-08-27/RecM02_DST20240827_090302_090334_0_800_800_033C820000_61B6F0.mp4"
      = Return "RecM02_DST20240827_090302_090334_0_800_800_033C820000_61B6F0")
    by (vm_compute; reflexivity).
  split; [exact Hstem |].
  refine (proj2 (tokens_by_count _ _ _ Hstem eq_refl) _ _).
  - vm_compute. reflexivity.
  - right. vm_compute. reflexivity.
Defined.

End Layout.

(** ** The version fallback *)

Section Fallback.

(** C4.  A version that is not registered for the family does not stop the
    decoding: the version used instead is the highest one registered for
    the family, 9 for the camera table, the same for every unregistered
    version; one warning is issued, and the decoder returns with the
    schema of that version, which [parseFileName] goes on to classify. *)
Theorem version_fallback (fileName hex : string) (family : DevType)
    (unknown : JS.number) :
  hasOwnProperty (FLAGS_MAPPING family) unknown = false ->
  resolveVersion fileName family unknown (JS.length hex) =
    ([console_debug (UnknownVersion fileName unknown (JS.length hex)
                       (JS.Fin (highest family)))],
     JS.Fin (highest family)) /\
  is_Some (FLAGS_MAPPING family !! highest family) /\
  (forall k, is_Some (FLAGS_MAPPING family !! k) -> k <= highest family) /\
  highest cam = 9 /\
  (forall unknown' hexLength',
     hasOwnProperty (FLAGS_MAPPING family) unknown' = false ->
     snd (resolveVersion fileName family unknown' hexLength') =
     snd (resolveVersion fileName family unknown (JS.length hex))) /\
  (exists flagValues,
     decodeHexToFlags hex (JS.Fin (highest family)) family = Return flagValues /\
     forall t : Locals,
       hexValue t = Some hex -> devType t = family -> version t = unknown ->
       decodeTokens fileName t =
         ((console_debug (UnknownVersion fileName unknown (JS.length hex)
                            (JS.Fin (highest family)))
           :: checkLength fileName family (JS.Fin (highest family)) (JS.length hex))
          ++ [console_log hex (JS.Fin (highest family)) family flagValues],
          Return (Some {| detectionClasses := classify flagValues |}))%list).
Proof.
  intros Hunknown.
  rewrite (resolveVersion_unknown _ _ _ _ Hunknown).
  split; [reflexivity |].
  split; [apply highest_registered |].
  split; [apply highest_is_max |].
  split; [reflexivity |].
  split.
  - intros unknown' hexLength' H'. now rewrite (resolveVersion_unknown _ _ _ _ H').
  - destruct (decodeHexToFlags_returns hex (JS.Fin (highest family)) family
                (highest_registered family)) as [flagValues Hdec].
    exists flagValues. split; [exact Hdec |].
    intros t Hhex Hdev Hver. unfold decodeTokens.
    rewrite Hhex, Hdev, Hver, (resolveVersion_unknown _ _ _ _ Hunknown), Hdec.
    reflexivity.
Qed.

Lemma version_fallback_witness :
  hasOwnProperty (FLAGS_MAPPING cam) (JS.Fin 99) = false /\
  resolveVersion "RecM09_20201222_075939_080140_6D28808_1A468F9.mp4" cam
    (JS.Fin 99) (JS.length "6D28808") =
    ([console_debug
        (UnknownVersion "RecM09_20201222_075939_080140_6D28808_1A468F9.mp4"
           (JS.Fin 99) (JS.Fin 7) (JS.Fin 9))],
     JS.Fin 9).
Proof.
  assert (H : hasOwnProperty (FLAGS_MAPPING cam) (JS.Fin 99) = false)
    by (vm_compute; reflexivity).
  split; [exact H |].
  exact (proj1 (version_fallback
                  "RecM09_20201222_075939_080140_6D28808_1A468F9.mp4"
                  "6D28808" cam (JS.Fin 99) H)).
Defined.

End Fallback.

(** ** The classifier *)

Section Classifier.

Ltac flags_cases :=
  unfold classify, pushIf;
  repeat match goal with
         | |- context [flagSet ?m ?k] => destruct (flagSet m k)
         end;
  cbn [List.length Nat.eqb app].

(** C5.  The classes come out in the fixed order person, vehicle, animal,
    motion, package, each at most once; a class is present exactly when its
    flag is set, a missing flag counting as not set, and ["motion"] is also
    present, alone, when none of the five flags is set.  So the flags
    [{ai_pd: 1, ai_vd: 1}] give [person, vehicle] and flags that are all
    zero give [motion]. *)
Theorem classify_order (flagValues : gmap string JS.number) :
  let fired := flagSet flagValues in
  let classes := classify flagValues in
  sublist classes ["person"; "vehicle"; "animal"; "motion"; "package"] /\
  (In "person" classes <-> fired "ai_pd" = true) /\
  (In "vehicle" classes <-> fired "ai_vd" = true) /\
  (In "animal" classes <-> fired "ai_ad" = true) /\
  (In "package" classes <-> fired "package_event" = true) /\
  (In "motion" classes <->
     fired "is_motion_record" = true \/
     (fired "ai_pd" = false /\ fired "ai_vd" = false /\ fired "ai_ad" = false /\
      fired "package_event" = false)) /\
  (fired "ai_pd" = false -> fired "ai_vd" = false -> fired "ai_ad" = false ->
   fired "is_motion_record" = false -> fired "package_event" = false ->
   classes = ["motion"]) /\
  (forall key, flagValues !! key = None -> fired key = false) /\
  (forall key z, flagValues !! key = Some (JS.Fin z) -> fired key = negb (z =? 0)) /\
  classify {[ "ai_pd" := JS.Fin 1; "ai_vd" := JS.Fin 1 ]} = ["person"; "vehicle"] /\
  ((forall key v, flagValues !! key = Some v -> v = JS.Fin 0) ->
   classes = ["motion"]).
Proof.
  cbv zeta.
  split; [flags_cases; repeat constructor |].
  split; [flags_cases; simpl; intuition congruence |].
  split; [flags_cases; simpl; intuition congruence |].
  split; [flags_cases; simpl; intuition congruence |].
  split; [flags_cases; simpl; intuition congruence |].
  split; [flags_cases; simpl; intuition congruence |].
  split; [flags_cases; congruence |].
  split; [intros key H; unfold flagSet; now rewrite H |].
  split; [intros key z H; unfold flagSet; now rewrite H |].
  split; [vm_compute; reflexivity |].
  intros Hzero.
  assert (Hoff : forall key, flagSet flagValues key = false).
  { intros key. unfold flagSet. destruct (flagValues !! key) as [v |] eqn:Hk;
      [| reflexivity]. now rewrite (Hzero _ _ Hk). }
  unfold classify. now rewrite !Hoff.
Qed.

End Classifier.

(** ** Numbers that stay exact *)

Section Numbers.

Lemma wrap32_small (z : Z) : - 2 ^ 31 <= z < 2 ^ 31 -> JS.wrap32 z = z.
Proof. intros H. unfold JS.wrap32. rewrite Z.mod_small; lia. Qed.

Lemma wrap32_range (z : Z) : - 2 ^ 31 <= JS.wrap32 z < 2 ^ 31.
Proof.
  unfold JS.wrap32.
  pose proof (Z.mod_pos_bound (z + 2 ^ 31) (2 ^ 32) ltac:(lia)). lia.
Qed.

Lemma ToInt32_range (n : JS.number) : - 2 ^ 31 <= JS.ToInt32 n < 2 ^ 31.
Proof. destruct n; simpl; try lia. apply wrap32_range. Qed.

Lemma round53_small (n : Z) : 0 <= n < 2 ^ 53 -> JS.round53 n = n.
Proof.
  intros [H0 H1]. unfold JS.round53.
  assert (Hlog : Z.log2 n + 1 <= 53).
  { destruct (Z.eq_dec n 0) as [-> | Hn]; [simpl; lia |].
    assert (Z.log2 n < 53) by (apply Z.log2_lt_pow2; lia). lia. }
  apply Z.leb_le in Hlog. now rewrite Hlog.
Qed.

Lemma ofZ_small (z : Z) : - 2 ^ 53 < z < 2 ^ 53 -> JS.ofZ z = JS.Fin z.
Proof.
  intros H. unfold JS.ofZ. rewrite round53_small by lia.
  assert (Hinf : (2 ^ 1024 <=? Z.abs z) = false).
  { apply Z.leb_gt. apply Z.lt_trans with (2 ^ 53); [lia |].
    apply Z.pow_lt_mono_r; lia. }
  rewrite Hinf. f_equal. lia.
Qed.

(** The mask and the shifted segment of lines 9-10 for a field that lies
    within the low 31 bits once its offset is taken modulo 32. *)
Lemma mask_value (off w : Z) :
  0 <= off < 2 ^ 32 -> 1 <= w <= 30 -> off mod 32 + w <= 31 ->
  JS.shl (JS.sub (JS.shl (JS.Fin 1) (JS.Fin w)) (JS.Fin 1)) (JS.Fin off) =
  JS.Fin (Z.shiftl (Z.ones w) (off mod 32)).
Proof.
  intros Hoff Hw Hfit.
  pose proof (Z.mod_pos_bound off 32 ltac:(lia)) as Ho.
  assert (Hw32 : (w mod 2 ^ 32) mod 32 = w).
  { rewrite (Z.mod_small w (2 ^ 32)) by lia. apply Z.mod_small. lia. }
  assert (Hpw : 2 <= 2 ^ w <= 2 ^ 30).
  { split; [change 2 with (2 ^ 1) at 1 |]; apply Z.pow_le_mono_r; lia. }
  unfold JS.shl at 2. simpl JS.ToInt32. simpl JS.ToUint32.
  rewrite Hw32, (wrap32_small 1) by lia.
  rewrite Z.shiftl_1_l, (wrap32_small (2 ^ w)) by lia.
  simpl JS.sub. rewrite ofZ_small by lia.
  unfold JS.shl. simpl JS.ToInt32. simpl JS.ToUint32.
  rewrite (Z.mod_small off (2 ^ 32)) by lia.
  rewrite (wrap32_small (2 ^ w - 1)) by lia.
  rewrite Z.ones_equiv, <- Z.sub_1_r.
  f_equal. apply wrap32_small.
  rewrite Z.shiftl_mul_pow2 by lia.
  assert (Hprod : 2 ^ w * 2 ^ (off mod 32) <= 2 ^ 31).
  { rewrite <- Z.pow_add_r by lia. apply Z.pow_le_mono_r; lia. }
  assert (0 < 2 ^ (off mod 32)) by (apply Z.pow_pos_nonneg; lia).
  nia.
Qed.

Lemma segment_value (hexIntRev : JS.number) (off w : Z) :
  0 <= off < 2 ^ 32 -> 1 <= w -> off mod 32 + w <= 31 ->
  JS.sar (JS.band hexIntRev (JS.Fin (Z.shiftl (Z.ones w) (off mod 32)))) (JS.Fin off) =
  JS.Fin (Z.shiftr (JS.ToInt32 hexIntRev) (off mod 32) mod 2 ^ w).
Proof.
  intros Hoff Hw Hfit.
  pose proof (Z.mod_pos_bound off 32 ltac:(lia)) as Ho.
  set (o := off mod 32) in *. set (x := JS.ToInt32 hexIntRev).
  assert (Hm : 0 <= Z.shiftl (Z.ones w) o < 2 ^ 31).
  { rewrite Z.shiftl_mul_pow2, Z.ones_equiv, <- Z.sub_1_r by lia.
    assert (Hprod : 2 ^ w * 2 ^ o <= 2 ^ 31).
    { rewrite <- Z.pow_add_r by lia. apply Z.pow_le_mono_r; lia. }
    assert (0 < 2 ^ o) by (apply Z.pow_pos_nonneg; lia).
    assert (0 < 2 ^ w) by (apply Z.pow_pos_nonneg; lia).
    nia. }
  unfold JS.sar, JS.band. simpl JS.ToUint32.
  rewrite (Z.mod_small off (2 ^ 32)) by lia. fold o.
  cbn [JS.ToInt32]. fold x.
  rewrite (wrap32_small (Z.shiftl (Z.ones w) o)) by lia.
  set (M := Z.shiftl (Z.ones w) o) in *.
  assert (HL : Z.land x M = Z.land x M mod 2 ^ 31).
  { rewrite <- Z.land_ones, <- Z.land_assoc, (Z.land_ones M) by lia.
    now rewrite (Z.mod_small M) by lia. }
  pose proof (Z.mod_pos_bound (Z.land x M) (2 ^ 31) ltac:(lia)) as HLb.
  rewrite <- HL in HLb.
  rewrite (wrap32_small (Z.land x M)) by lia.
  f_equal. rewrite Z.shiftr_land. unfold M.
  rewrite Z.shiftr_shiftl_l, Z.sub_diag, Z.shiftl_0_r by lia.
  apply Z.land_ones. lia.
Qed.

End Numbers.

(** ** Binary strings *)

Section BinaryStrings.

Lemma render_S (n : nat) (z : Z) :
  Spec.render (S n) z = Z.testbit z (Z.of_nat n) :: Spec.render n z.
Proof. unfold Spec.render. now rewrite seq_S, map_app, rev_app_distr. Qed.

Lemma render_snoc (n : nat) (z : Z) :
  Spec.render (S n) z = (Spec.render n (Z.div2 z) ++ [Z.odd z])%list.
Proof.
  unfold Spec.render. rewrite <- cons_seq, <- seq_shift.
  cbn [map rev]. rewrite map_map, Z.bit0_odd. f_equal. f_equal.
  apply map_ext. intros i.
  rewrite Z.div2_div, Z.div2_bits by lia. f_equal. lia.
Qed.

Lemma render_length (n : nat) (z : Z) : List.length (Spec.render n z) = n.
Proof. unfold Spec.render. now rewrite length_rev, length_map, length_seq. Qed.

Lemma render_pad (k n : nat) (z : Z) :
  0 <= z < 2 ^ Z.of_nat n ->
  Spec.render (k + n) z = (repeat false k ++ Spec.render n z)%list.
Proof.
  intros Hz. induction k as [| k IH]; [reflexivity |].
  change (S k + n)%nat with (S (k + n)). rewrite render_S, IH. simpl. f_equal.
  destruct (Z.eq_dec z 0) as [-> | Hne]; [apply Z.bits_0 |].
  apply Z.bits_above_log2; [lia |].
  apply Z.lt_le_trans with (Z.of_nat n); [| lia].
  apply Z.log2_lt_pow2; lia.
Qed.

Lemma binary_render (p : positive) (acc : list ascii) :
  JS.binary p acc =
  (map bitChar (Spec.render (Pos.size_nat p) (Zpos p)) ++ acc)%list.
Proof.
  revert acc. induction p as [p IH | p IH |]; intros acc; simpl JS.binary.
  - rewrite IH. simpl Pos.size_nat. rewrite render_snoc, map_app, <- app_assoc.
    reflexivity.
  - rewrite IH. simpl Pos.size_nat. rewrite render_snoc, map_app, <- app_assoc.
    reflexivity.
  - reflexivity.
Qed.

Lemma size_nat_bound (p : positive) :
  2 ^ Z.of_nat (Pos.size_nat p) <= 2 * Zpos p < 2 * 2 ^ Z.of_nat (Pos.size_nat p).
Proof.
  induction p as [p IH | p IH |]; simpl Pos.size_nat;
    rewrite ?Nat2Z.inj_succ, ?Z.pow_succ_r by lia; simpl; lia.
Qed.

Lemma length_string_of_list_ascii (l : list ascii) :
  String.length (string_of_list_ascii l) = List.length l.
Proof.
  induction l as [| c l IH]; [reflexivity |].
  cbn [string_of_list_ascii String.length List.length]. now rewrite IH.
Qed.

Lemma string_of_list_ascii_app (l1 l2 : list ascii) :
  string_of_list_ascii (l1 ++ l2) =
  (string_of_list_ascii l1 ++ string_of_list_ascii l2)%string.
Proof.
  induction l1 as [| c l1 IH]; [reflexivity |].
  cbn [app string_of_list_ascii]. now rewrite IH.
Qed.

Lemma bitString_length (bits : list bool) :
  String.length (bitString bits) = List.length bits.
Proof. unfold bitString. now rewrite length_string_of_list_ascii, length_map. Qed.

(** [toString(2)] of a natural number is its shortest rendering. *)
Lemma toString2_render (v : Z) :
  0 <= v ->
  exists n, (1 <= n)%nat /\ v < 2 ^ Z.of_nat n /\
            (v = 0 -> n = 1%nat) /\ (v <> 0 -> 2 ^ Z.of_nat n <= 2 * v) /\
            JS.toString2 (JS.Fin v) = bitString (Spec.render n v).
Proof.
  intros Hv. destruct v as [| p | p]; [| | lia].
  - exists 1%nat. repeat split; try lia. 
  - exists (Pos.size_nat p). pose proof (size_nat_bound p) as Hs.
    repeat split; try lia.
    + destruct p; simpl; lia.
    + simpl. unfold bitString. now rewrite binary_render, app_nil_r.
Qed.

(** Padding a number that fits on [w] bits gives its rendering on [w]
    bits. *)
Lemma padStart0_render (v : Z) (w : nat) :
  0 <= v < 2 ^ Z.of_nat w -> (1 <= w)%nat -> Z.of_nat w < 2 ^ 53 ->
  JS.padStart0 (JS.toString2 (JS.Fin v)) (JS.Fin (Z.of_nat w)) =
  bitString (Spec.render w v).
Proof.
  intros Hv Hw Hw53.
  destruct (toString2_render v ltac:(lia)) as (n & Hn1 & Hvn & Hzero & Hnv & ->).
  assert (Hnw : (n <= w)%nat).
  { destruct (Z.eq_dec v 0) as [Heq | Hne]; [specialize (Hzero Heq); lia |].
    specialize (Hnv Hne).
    assert (Hlt : 2 ^ Z.of_nat n < 2 ^ (Z.of_nat w + 1)).
    { rewrite Z.pow_add_r by lia. lia. }
    apply Z.pow_lt_mono_r_iff in Hlt; lia. }
  unfold JS.padStart0, JS.ToLength.
  rewrite bitString_length, render_length.
  rewrite Z.max_r, Z.min_l by lia.
  destruct (Z.leb_spec (Z.of_nat w) (Z.of_nat n)) as [Hle | Hgt].
  - now replace w with n by lia.
  - replace (Z.to_nat (Z.of_nat w - Z.of_nat n)) with (w - n)%nat by lia.
    replace w with ((w - n) + n)%nat at 2 by lia.
    rewrite render_pad by lia. unfold bitString.
    rewrite map_app, string_of_list_ascii_app. f_equal.
    induction (w - n)%nat as [| k IH]; simpl; congruence.
Qed.

Lemma reverse_bitString (bits : list bool) :
  JS.reverse (bitString bits) = bitString (rev bits).
Proof.
  unfold JS.reverse, bitString.
  now rewrite list_ascii_of_string_of_list_ascii, map_rev.
Qed.

Lemma parse2_acc (bits : list bool) (acc : Z) :
  fold_left (fun a b => 2 * a + Z.b2z b) bits acc =
  acc * 2 ^ Z.of_nat (List.length bits) + Spec.parse2 bits.
Proof.
  unfold Spec.parse2. revert acc.
  induction bits as [| b bits IH]; intros acc; [simpl; lia |].
  cbn [fold_left List.length]. rewrite IH, (IH (2 * 0 + Z.b2z b)).
  rewrite Nat2Z.inj_succ, Z.pow_succ_r by lia. lia.
Qed.

Lemma parse2_range (bits : list bool) :
  0 <= Spec.parse2 bits < 2 ^ Z.of_nat (List.length bits).
Proof.
  induction bits as [| b bits IH]; [simpl; unfold Spec.parse2; simpl; lia |].
  unfold Spec.parse2. cbn [fold_left List.length]. rewrite parse2_acc.
  rewrite Nat2Z.inj_succ, Z.pow_succ_r by lia. destruct b; simpl Z.b2z; lia.
Qed.

(** The digits that [parseInt] reads off a bit string, up to what follows
    it. *)
Lemma digits_bits (bits : list bool) (rest : list ascii) (acc : Z) :
  JS.digits 2 (string_of_list_ascii (map bitChar bits ++ rest)) (Some acc) =
  JS.digits 2 (string_of_list_ascii rest)
    (Some (fold_left (fun a b => 2 * a + Z.b2z b) bits acc)).
Proof.
  revert acc. induction bits as [| b bits IH]; intros acc; [reflexivity |].
  cbn [map app string_of_list_ascii JS.digits fold_left].
  destruct b; simpl; apply IH.
Qed.

Lemma parseInt_bitString (b : bool) (bits : list bool) :
  JS.parseInt (bitString (b :: bits)) 2 = JS.ofZ (Spec.parse2 (b :: bits)).
Proof.
  assert (Hd : JS.digits 2 (bitString (b :: bits)) None =
               Some (Spec.parse2 (b :: bits))).
  { unfold Spec.parse2. cbn [fold_left].
    pose proof (digits_bits bits [] (2 * 0 + Z.b2z b)) as H.
    rewrite app_nil_r in H. simpl JS.digits in H. rewrite <- H.
    unfold bitString. destruct b; reflexivity. }
  unfold JS.parseInt.
  assert (Htrim : JS.trimStart (bitString (b :: bits)) = bitString (b :: bits)).
  { unfold bitString. destruct b; reflexivity. }
  rewrite Htrim.
  destruct b; unfold bitString in *; cbn [map bitChar string_of_list_ascii] in *;
    cbn -[JS.digits JS.ofZ Spec.parse2]; rewrite Hd;
    f_equal; destruct (Spec.parse2 _); reflexivity.
Qed.

(** Lines 10-11 on a segment that fits its width: the segment rendered on
    [w] bits and reversed, exactly as step 4 of the specification. *)
Lemma reverse_segment (v : Z) (w : nat) :
  0 <= v < 2 ^ Z.of_nat w -> (1 <= w <= 53)%nat ->
  JS.parseInt (JS.reverse (JS.padStart0 (JS.toString2 (JS.Fin v))
                                        (JS.Fin (Z.of_nat w)))) 2 =
  JS.Fin (Spec.parse2 (rev (Spec.render w v))).
Proof.
  intros Hv Hw.
  rewrite padStart0_render, reverse_bitString by (try lia; split; try lia).
  pose proof (parse2_range (rev (Spec.render w v))) as Hr.
  rewrite length_rev, render_length in Hr.
  destruct (rev (Spec.render w v)) as [| b bits] eqn:Hbits.
  { apply (f_equal (@List.length bool)) in Hbits.
    rewrite length_rev, render_length in Hbits. simpl in Hbits. lia. }
  rewrite parseInt_bitString. apply ofZ_small.
  assert (2 ^ Z.of_nat w <= 2 ^ 53) by (apply Z.pow_le_mono_r; lia). lia.
Qed.

End BinaryStrings.

(** ** The decoded fields *)

Section DecodedFields.

(** A field within the low 31 bits (after its offset is taken modulo 32)
    decodes to the reversal of the bits found there. *)
Lemma decodeFlag_low (hexIntRev : JS.number) (off w : Z) :
  0 <= off < 2 ^ 32 -> 1 <= w <= 30 -> off mod 32 + w <= 31 ->
  decodeFlag hexIntRev (JS.Fin off) (JS.Fin w) =
  JS.Fin (Spec.parse2
            (rev (Spec.render (Z.to_nat w)
                    (Z.shiftr (JS.ToInt32 hexIntRev) (off mod 32) mod 2 ^ w)))).
Proof.
  intros Hoff Hw Hfit. unfold decodeFlag.
  rewrite mask_value, segment_value by lia.
  pose proof (Z.mod_pos_bound (Z.shiftr (JS.ToInt32 hexIntRev) (off mod 32))
                (2 ^ w) ltac:(apply Z.pow_pos_nonneg; lia)) as Hv.
  rewrite <- (Z2Nat.id w) at 2 by lia.
  apply reverse_segment; [rewrite Z2Nat.id by lia; exact Hv | lia].
Qed.

Lemma decodeFlag_low_range (hexIntRev : JS.number) (off w : Z) :
  0 <= off < 2 ^ 32 -> 1 <= w <= 30 -> off mod 32 + w <= 31 ->
  exists v, decodeFlag hexIntRev (JS.Fin off) (JS.Fin w) = JS.Fin v /\
            0 <= v < 2 ^ w.
Proof.
  intros Hoff Hw Hfit. eexists. split; [now apply decodeFlag_low |].
  match goal with |- _ <= Spec.parse2 ?bits < _ =>
    pose proof (parse2_range bits) as Hr end.
  rewrite length_rev, render_length, Z2Nat.id in Hr by lia. exact Hr.
Qed.

(** The one field of the tables whose mask reaches bit 31,
    [picture_layout_index: [28, 7]]: the mask is cut to bits 28 to 31 and
    the segment is a signed number from -8 to 7. *)
Lemma decodeFlag_28_7_range (hexIntRev : JS.number) :
  exists v, decodeFlag hexIntRev (JS.Fin 28) (JS.Fin 7) = JS.Fin v /\
            0 <= v < 2 ^ 7.
Proof.
  unfold decodeFlag.
  assert (Hmask : JS.shl (JS.sub (JS.shl (JS.Fin 1) (JS.Fin 7)) (JS.Fin 1))
                    (JS.Fin 28) = JS.Fin (Z.lnot (Z.ones 28)))
    by (vm_compute; reflexivity).
  rewrite Hmask. clear Hmask.
  pose proof (ToInt32_range hexIntRev) as Hx.
  unfold JS.sar, JS.band. cbn [JS.ToInt32].
  change (JS.ToUint32 (JS.Fin 28) mod 32) with 28.
  change (JS.wrap32 (Z.lnot (Z.ones 28))) with (Z.lnot (Z.ones 28)).
  set (x := JS.ToInt32 hexIntRev) in *.
  rewrite <- Z.ldiff_land, Z.ldiff_ones_r by lia.
  assert (Hq : -8 <= Z.shiftr x 28 <= 7).
  { rewrite Z.shiftr_div_pow2 by lia.
    split; [apply Z.div_le_lower_bound | apply Z.lt_succ_r, Z.div_lt_upper_bound]; lia. }
  rewrite wrap32_small by (rewrite Z.shiftl_mul_pow2 by lia; lia).
  rewrite Z.shiftr_shiftl_l, Z.sub_diag, Z.shiftl_0_r by lia.
  assert (Hcases : In (Z.shiftr x 28) [-8; -7; -6; -5; -4; -3; -2; -1;
                                        0; 1; 2; 3; 4; 5; 6; 7])
    by (simpl; lia).
  revert Hcases. generalize (Z.shiftr x 28). intros v Hcases. simpl in Hcases.
  clear Hq Hx. clear x.
  repeat (destruct Hcases as [<- | Hcases];
          [eexists; split; [vm_compute; reflexivity | lia] |]).
  contradiction.
Qed.

(** Every schema of [FLAGS_MAPPING] is one of the four tables. *)
Lemma registry_cases devType version flags :
  getProp (FLAGS_MAPPING devType) version = Some flags ->
  flags = FLAGS_CAM_V2 \/ flags = FLAGS_HUB_V0 \/ flags = FLAGS_HUB_V1 \/
  flags = FLAGS_HUB_V2.
Proof.
  destruct version as [| s | z]; try discriminate. simpl.
  destruct devType; unfold FLAGS_MAPPING;
    repeat (rewrite lookup_insert; case_decide; [intros [= <-]; tauto |]);
    rewrite lookup_empty; discriminate.
Qed.

Ltac field_in_range :=
  intros hexIntRev; cbn [fst snd];
  lazymatch goal with
  | |- context [decodeFlag _ (JS.Fin 28) (JS.Fin 7)] =>
      apply decodeFlag_28_7_range
  | |- _ =>
      apply decodeFlag_low_range; [lia | lia | vm_compute; discriminate]
  end.

Lemma registry_fields_in_range devType version flags :
  getProp (FLAGS_MAPPING devType) version = Some flags ->
  Forall fieldInRange flags.
Proof.
  intros H. apply registry_cases in H as [-> | [-> | [-> | ->]]];
    unfold FLAGS_CAM_V2, FLAGS_HUB_V1, FLAGS_HUB_V0, FLAGS_HUB_V2; cbn [app];
    repeat (apply List.Forall_cons; [field_in_range |]); apply List.Forall_nil.
Qed.

Lemma registry_NoDup devType version flags :
  getProp (FLAGS_MAPPING devType) version = Some flags -> NoDup flags.*1.
Proof.
  intros H. apply registry_cases in H as [-> | [-> | [-> | ->]]];
    apply (bool_decide_unpack _); vm_compute; reflexivity.
Qed.

(** The loop of lines 8-12 as a fold: the keys it leaves and the values it
    stores. *)
Lemma storeFlags_dom (g : Z -> Z -> JS.number) (flags : Flags)
    (init : gmap string JS.number) :
  dom (storeFlags g flags init) = list_to_set flags.*1 ∪ dom init.
Proof.
  revert init. induction flags as [| [flag [p s]] flags IH]; intros init.
  - simpl. set_solver.
  - unfold storeFlags in *. cbn [fold_left]. rewrite IH, dom_insert_L. simpl.
    set_solver.
Qed.

Lemma storeFlags_other (g : Z -> Z -> JS.number) (flags : Flags)
    (init : gmap string JS.number) (name : string) :
  name ∉ flags.*1 -> storeFlags g flags init !! name = init !! name.
Proof.
  revert init. induction flags as [| [flag [p s]] flags IH]; intros init Hnot.
  - reflexivity.
  - unfold storeFlags in *. cbn [fold_left]. simpl in Hnot.
    apply not_elem_of_cons in Hnot as [Hne Hnot].
    rewrite IH by assumption. now apply lookup_insert_ne.
Qed.

Lemma storeFlags_lookup (g : Z -> Z -> JS.number) (flags : Flags)
    (init : gmap string JS.number) (name : string) (p s : Z) :
  NoDup flags.*1 -> In (name, (p, s)) flags ->
  storeFlags g flags init !! name = Some (g p s).
Proof.
  revert init. induction flags as [| [flag [p' s']] flags IH]; intros init Hnd Hin.
  - destruct Hin.
  - simpl in Hnd. apply NoDup_cons in Hnd as [Hfresh Hnd].
    unfold storeFlags. cbn [fold_left].
    destruct Hin as [[= -> -> ->] | Hin].
    + fold (storeFlags g flags (<[name := g p s]> init)).
      rewrite storeFlags_other by assumption. apply lookup_insert_eq.
    + now apply IH.
Qed.

(** C6.  For every payload string and every schema of the registry the
    decoder returns a mapping whose keys are exactly the field names of the
    schema, and the value of each field is a number [v] with
    [0 <= v < 2^bit_width]. *)
Theorem decoded_fields_in_range (hexValue : string) (version : JS.number)
    (devType : DevType) (flags : Flags) :
  getProp (FLAGS_MAPPING devType) version = Some flags ->
  exists flagValues,
    decodeHexToFlags hexValue version devType = Return flagValues /\
    dom flagValues = list_to_set flags.*1 /\
    forall name off w,
      In (name, (off, w)) flags ->
      exists v, flagValues !! name = Some (JS.Fin v) /\ 0 <= v < 2 ^ w.
Proof.
  intros Hflags. unfold decodeHexToFlags. rewrite Hflags. simpl.
  exists (storeFlags
            (fun p s => decodeFlag (reversePayload hexValue) (JS.Fin p) (JS.Fin s))
            flags ∅).
  split; [reflexivity |]. split.
  - rewrite storeFlags_dom. set_solver.
  - intros name off w Hin.
    pose proof (registry_fields_in_range _ _ _ Hflags) as Hall.
    rewrite Forall_forall in Hall.
    destruct (Hall _ (proj2 (list_elem_of_In _ _) Hin) (reversePayload hexValue))
      as (v & Hv & Hrange).
    exists v. split; [| exact Hrange].
    rewrite (storeFlags_lookup _ flags ∅ name off w
               (registry_NoDup _ _ _ Hflags) Hin).
    now rewrite <- Hv.
Qed.

Lemma decoded_fields_in_range_witness :
  getProp (FLAGS_MAPPING hub) (JS.Fin 2) = Some FLAGS_HUB_V2 /\
  exists flagValues,
    decodeHexToFlags "033C820000" (JS.Fin 2) hub = Return flagValues /\
    exists v, flagValues !! "picture_layout_index" = Some (JS.Fin v) /\
              0 <= v < 2 ^ 7.
Proof.
  assert (H : getProp (FLAGS_MAPPING hub) (JS.Fin 2) = Some FLAGS_HUB_V2)
    by (vm_compute; reflexivity).
  split; [exact H |].
  destruct (decoded_fields_in_range "033C820000" (JS.Fin 2) hub FLAGS_HUB_V2 H)
    as (flagValues & Hdec & _ & Hval).
  exists flagValues. split; [exact Hdec |].
  apply (Hval "picture_layout_index" 28 7). unfold FLAGS_HUB_V2. simpl. tauto.
Defined.

End DecodedFields.

(** ** Where the decoder agrees with the specification *)

Section Agreement.

Lemma hex_char (c : ascii) :
  Spec.isHexDigit c = true ->
  JS.digitValue c = Some (Spec.hexDigit c) /\ 0 <= Spec.hexDigit c < 16 /\
  JS.isWhiteSpace c = false /\
  (forall s, JS.signOf (String c s) = 1) /\
  (forall s, JS.dropSign (String c s) = String c s) /\
  c <> "x"%char /\ c <> "X"%char.
Proof.
  destruct c as [[] [] [] [] [] [] [] []]; intros H; try discriminate H;
    repeat split; try reflexivity; try discriminate; simpl; lia.
Qed.

Lemma hasHexPrefix_hex (payload : string) :
  Spec.isHex payload = true -> JS.hasHexPrefix payload = false.
Proof.
  destruct payload as [| c [| c' s]]; [reflexivity | |].
  - destruct c as [[] [] [] [] [] [] [] []]; reflexivity.
  - unfold Spec.isHex. cbn [list_ascii_of_string forallb]. intros H.
    apply andb_prop in H as [_ H]. apply andb_prop in H as [H _].
    destruct (hex_char c' H) as (_ & _ & _ & _ & _ & Hx & HX).
    destruct c as [[] [] [] [] [] [] [] []]; try reflexivity;
      destruct c' as [[] [] [] [] [] [] [] []]; try reflexivity; congruence.
Qed.

Lemma parse16_acc (l : list ascii) (acc : Z) :
  fold_left (fun a c => 16 * a + Spec.hexDigit c) l acc =
  acc * 16 ^ Z.of_nat (List.length l) +
  fold_left (fun a c => 16 * a + Spec.hexDigit c) l 0.
Proof.
  revert acc. induction l as [| c l IH]; intros acc; [simpl; lia |].
  cbn [fold_left List.length]. rewrite IH, (IH (16 * 0 + Spec.hexDigit c)).
  rewrite Nat2Z.inj_succ, Z.pow_succ_r by lia. lia.
Qed.

Lemma length_list_ascii_of_string (s : string) :
  List.length (list_ascii_of_string s) = String.length s.
Proof.
  induction s as [| c s IH]; [reflexivity |].
  cbn [list_ascii_of_string List.length String.length]. now rewrite IH.
Qed.

Lemma parse16_range (payload : string) :
  Spec.isHex payload = true ->
  0 <= Spec.parse16 payload < 16 ^ Z.of_nat (String.length payload).
Proof.
  unfold Spec.isHex, Spec.parse16. rewrite <- length_list_ascii_of_string.
  induction (list_ascii_of_string payload) as [| c l IH]; intros H;
    [simpl; lia |].
  cbn [forallb] in H. apply andb_prop in H as [Hc Hl].
  destruct (hex_char c Hc) as (_ & Hd & _). specialize (IH Hl).
  cbn [fold_left List.length]. rewrite parse16_acc.
  rewrite Nat2Z.inj_succ, Z.pow_succ_r by lia. nia.
Qed.

Lemma digits_hex (l : list ascii) (acc : Z) :
  forallb Spec.isHexDigit l = true ->
  JS.digits 16 (string_of_list_ascii l) (Some acc) =
  Some (fold_left (fun a c => 16 * a + Spec.hexDigit c) l acc).
Proof.
  revert acc. induction l as [| c l IH]; intros acc H; [reflexivity |].
  cbn [forallb] in H. apply andb_prop in H as [Hc Hl].
  destruct (hex_char c Hc) as (Hv & Hd & _).
  cbn [string_of_list_ascii JS.digits fold_left]. rewrite Hv.
  destruct (Z.ltb_spec (Spec.hexDigit c) 16) as [_ | Hge]; [| lia].
  now apply IH.
Qed.

(** [parseInt(payload, 16)] of a non-empty string of hexadecimal digits is
    the Number of its base-16 value. *)
Lemma parseInt_hex (payload : string) :
  Spec.isHex payload = true -> payload <> "" ->
  JS.parseInt payload 16 = JS.ofZ (Spec.parse16 payload).
Proof.
  intros Hhex Hne. pose proof (hasHexPrefix_hex payload Hhex) as Hprefix.
  destruct payload as [| c s]; [congruence |].
  pose proof Hhex as Hall. unfold Spec.isHex in Hall.
  cbn [list_ascii_of_string forallb] in Hall. apply andb_prop in Hall as [Hc Hs].
  destruct (hex_char c Hc) as (Hv & Hd & Hws & Hsign & Hdrop & _).
  unfold JS.parseInt. cbn [JS.trimStart]. rewrite Hws, Hsign, Hdrop, Hprefix.
  change (16 =? 0) with false. change (16 =? 16) with true.
  change (16 <? 2) with false. change (36 <? 16) with false.
  cbn [negb andb orb JS.digits]. rewrite Hv.
  destruct (Z.ltb_spec (Spec.hexDigit c) 16) as [_ | Hge]; [| lia].
  rewrite <- (string_of_list_ascii_of_string s), digits_hex by assumption.
  unfold Spec.parse16. cbn [list_ascii_of_string fold_left].
  rewrite list_ascii_of_string_of_list_ascii. f_equal. apply Z.mul_1_l.
Qed.

(** Lines 4-5 compute the reversed payload of step 2 as long as the payload
    fits the 53 bits of a double, that is up to 13 digits. *)
Lemma reversePayload_exact (payload : string) :
  Spec.isHex payload = true -> (1 <= String.length payload <= 13)%nat ->
  reversePayload payload = JS.Fin (Spec.raw_rev payload) /\
  0 <= Spec.raw_rev payload < 2 ^ 52.
Proof.
  intros Hhex Hlen. pose proof (parse16_range payload Hhex) as Hraw.
  assert (Hne : payload <> "") by (intros ->; simpl in Hlen; lia).
  set (len := String.length payload) in *.
  assert (Hpow : 16 ^ Z.of_nat len = 2 ^ Z.of_nat (4 * len)).
  { change 16 with (2 ^ 4). rewrite <- Z.pow_mul_r by lia. f_equal. lia. }
  assert (Hmax : 2 ^ Z.of_nat (4 * len) <= 2 ^ 52)
    by (apply Z.pow_le_mono_r; lia).
  pose proof (parse2_range (rev (Spec.render (4 * len) (Spec.parse16 payload))))
    as Hrev.
  rewrite length_rev, render_length in Hrev.
  split; [| unfold Spec.raw_rev; fold len; lia].
  unfold reversePayload.
  rewrite parseInt_hex by assumption.
  rewrite ofZ_small by lia.
  unfold JS.length, JS.mul. fold len. rewrite ofZ_small by lia.
  replace (Z.of_nat len * 4) with (Z.of_nat (4 * len)) by lia.
  rewrite padStart0_render, reverse_bitString by lia.
  unfold Spec.raw_rev. fold len.
  destruct (rev (Spec.render (4 * len) (Spec.parse16 payload))) as [| b bits] eqn:Hbits.
  { apply (f_equal (@List.length bool)) in Hbits.
    rewrite length_rev, render_length in Hbits. simpl in Hbits. lia. }
  rewrite parseInt_bitString. apply ofZ_small. lia.
Qed.

(** The segment of step 3 only depends on the bits it covers, so taking
    the reversed payload modulo 2^32 does not change a segment that ends
    below bit 32. *)
Lemma segment_mod (n off w : Z) :
  0 <= off -> 0 <= w -> Spec.segment n off w = Z.shiftr n off mod 2 ^ w.
Proof.
  intros Hoff Hw. unfold Spec.segment.
  rewrite Z.shiftl_1_l, Z.sub_1_r, <- Z.ones_equiv.
  rewrite Z.shiftr_land, Z.shiftr_shiftl_l, Z.sub_diag, Z.shiftl_0_r by lia.
  now apply Z.land_ones.
Qed.

Lemma segment_wrap32 (n off w : Z) :
  0 <= off -> 0 <= w -> off + w <= 32 ->
  Z.shiftr (JS.wrap32 n) off mod 2 ^ w = Z.shiftr n off mod 2 ^ w.
Proof.
  intros Hoff Hw Hfit. rewrite <- !Z.land_ones by lia.
  apply Z.bits_inj'. intros i Hi.
  rewrite !Z.land_spec, !Z.shiftr_spec by lia.
  destruct (Z.ltb_spec i w) as [Hlt | Hge].
  - f_equal. unfold JS.wrap32.
    replace (Z.testbit n (i + off))
      with (Z.testbit (n mod 2 ^ 32) (i + off))
      by (apply Z.mod_pow2_bits_low; lia).
    replace (Z.testbit ((n + 2 ^ 31) mod 2 ^ 32 - 2 ^ 31) (i + off))
      with (Z.testbit (((n + 2 ^ 31) mod 2 ^ 32 - 2 ^ 31) mod 2 ^ 32) (i + off))
      by (apply Z.mod_pow2_bits_low; lia).
    f_equal.
    rewrite Zminus_mod_idemp_l. f_equal. lia.
  - rewrite Z.ones_spec_high by lia. now rewrite !andb_false_r.
Qed.

Lemma registry_fields_shape devType version flags name off w :
  getProp (FLAGS_MAPPING devType) version = Some flags ->
  In (name, (off, w)) flags -> 0 <= off < 39 /\ 1 <= w <= 7.
Proof.
  intros H Hin. apply registry_cases in H as [-> | [-> | [-> | ->]]];
    unfold FLAGS_CAM_V2, FLAGS_HUB_V1, FLAGS_HUB_V0, FLAGS_HUB_V2 in Hin;
    simpl in Hin;
    repeat (destruct Hin as [[= <- <- <-] | Hin]; [lia |]); destruct Hin.
Qed.

(** On a payload of 1 to 13 hexadecimal digits, every field of a registered
    schema that ends below bit 32 is decoded to the double reversal of
    section 4.2.  All the fields of the camera schema are of that kind, so
    camera payloads of the lengths 7 and 9 expected for versions 2, 3 and 4
    are decoded as specified. *)
Theorem decoder_agrees_below_bit_31 (payload : string) (version : JS.number)
    (devType : DevType) (flags : Flags) (name : string) (off w : Z) :
  Spec.isHex payload = true -> (1 <= String.length payload <= 13)%nat ->
  getProp (FLAGS_MAPPING devType) version = Some flags ->
  In (name, (off, w)) flags -> off + w <= 31 ->
  decoded payload version devType name =
    Some (JS.Fin (Spec.decode_field payload off w)).
Proof.
  intros Hhex Hlen Hflags Hin Hfit.
  destruct (registry_fields_shape _ _ _ _ _ _ Hflags Hin) as [Hoff Hw].
  unfold decoded, decodeHexToFlags. rewrite Hflags. simpl.
  fold (storeFlags
          (fun p s => decodeFlag (reversePayload payload) (JS.Fin p) (JS.Fin s))
          flags ∅).
  rewrite (storeFlags_lookup _ flags ∅ name off w
             (registry_NoDup _ _ _ Hflags) Hin).
  destruct (reversePayload_exact payload Hhex Hlen) as [-> Hrange].
  assert (Hmod : off mod 32 = off) by (apply Z.mod_small; lia).
  rewrite decodeFlag_low by lia.
  unfold Spec.decode_field. rewrite segment_mod by lia.
  cbn [JS.ToInt32]. rewrite Hmod, segment_wrap32 by lia. reflexivity.
Qed.

Lemma decoder_agrees_below_bit_31_witness :
  decoded "6D28808" (JS.Fin 2) cam "framerate" =
    Some (JS.Fin (Spec.decode_field "6D28808" 8 7)).
Proof.
  apply (decoder_agrees_below_bit_31 "6D28808" (JS.Fin 2) cam FLAGS_CAM_V2).
  - vm_compute. reflexivity.
  - simpl. lia.
  - vm_compute. reflexivity.
  - unfold FLAGS_CAM_V2. simpl. tauto.
  - lia.
Defined.

End Agreement.

(** ** The decoder against the specification's arithmetic *)

Section Divergence.

(** C1.  The decoder does not compute the double reversal of the
    specification on every payload and field.  The hub file name quoted in
    the source carries the payload ["033C820000"]; for the field
    [upload_flag: [38, 1]] of hub version 2 the specification's arithmetic
    gives 0 (bit 38 of the reversed payload is clear) while the decoder
    stores 1: [1 << 38] is [1 << 6] in 32-bit arithmetic, so bit 6 is read.
    A 14-digit camera payload is also rounded to 53 significant bits on the
    way: ["FFFFFFFFFFFFFF"] decodes [resolution_index] to 64, not 127.
    Below bit 31 and up to 13 digits the two agree
    ([decoder_agrees_below_bit_31]). *)
Theorem upload_flag_reads_bit_6 :
  Spec.isHex "033C820000" = true /\
  getProp (FLAGS_MAPPING hub) (JS.Fin 2) = Some FLAGS_HUB_V2 /\
  In ("upload_flag", (38, 1)) FLAGS_HUB_V2 /\
  decoded "033C820000" (JS.Fin 2) hub "upload_flag" = Some (JS.Fin 1) /\
  Spec.decode_field "033C820000" 38 1 = 0 /\
  JS.shl (JS.sub (JS.shl (JS.Fin 1) (JS.Fin 1)) (JS.Fin 1)) (JS.Fin 38) = JS.Fin 64 /\
  Spec.isHex "FFFFFFFFFFFFFF" = true /\
  In ("resolution_index", (0, 7)) FLAGS_CAM_V2 /\
  decoded "FFFFFFFFFFFFFF" (JS.Fin 9) cam "resolution_index" = Some (JS.Fin 64) /\
  Spec.decode_field "FFFFFFFFFFFFFF" 0 7 = 127.
Proof.
  repeat apply conj; try (vm_compute; reflexivity).
  - unfold FLAGS_HUB_V2. simpl. tauto.
  - unfold FLAGS_CAM_V2. simpl. tauto.
Qed.

(** C8.  The round trip fails on the hub schemas.  With the 10-digit
    payload of hub version 2 that sets only [upload_flag: [38, 1]],
    ["0000000002"], every field is decoded to 0, [upload_flag] included;
    with the one that sets only [resolution_index] to its maximum,
    ["FE00000000"], the fields at offsets 35 to 38 are decoded to 1 as
    well, because their offsets are taken modulo 32.  On the camera
    schemas, whose fields end at bit 28, the round trip holds at each
    expected length. *)
Theorem round_trip_fails_on_hub :
  roundTrip hub 2 10 = false /\
  Spec.synthetic 10 38 1 = "0000000002" /\
  decoded "0000000002" (JS.Fin 2) hub "upload_flag" = Some (JS.Fin 0) /\
  Spec.decode_field "0000000002" 38 1 = 1 /\
  Spec.synthetic 10 0 7 = "FE00000000" /\
  decoded "FE00000000" (JS.Fin 2) hub "resolution_index" = Some (JS.Fin 127) /\
  decoded "FE00000000" (JS.Fin 2) hub "package_delivered" = Some (JS.Fin 1) /\
  decoded "FE00000000" (JS.Fin 2) hub "package_takenaway" = Some (JS.Fin 1) /\
  decoded "FE00000000" (JS.Fin 2) hub "package_event" = Some (JS.Fin 1) /\
  decoded "FE00000000" (JS.Fin 2) hub "upload_flag" = Some (JS.Fin 1) /\
  Spec.decode_field "FE00000000" 35 1 = 0 /\
  roundTrip cam 2 7 = true /\ roundTrip cam 3 7 = true /\
  roundTrip cam 4 9 = true /\ roundTrip cam 9 14 = true.
Proof. repeat apply conj; vm_compute; reflexivity. Qed.

(** C9.  The decoder always returns, and a payload of the wrong length only
    adds a warning; but a field past the end of a short payload is not
    always decoded to zero.  For the hub name with the 2-digit payload
    ["FF"] the call returns and warns about the length, yet
    [package_event: [37, 1]], which lies wholly past the 8 bits of the
    payload, is decoded to 1 (bit 5 is read), and the file is classified as
    a package event; the specification's arithmetic gives 0 there. *)
Theorem short_payload_field_not_zero :
  (exists log,
     parseFileName "RecM02_DST20240827_090302_090334_0_800_800_FF_61B6F0.mp4" =
       (console_debug
          (UnexpectedHexLength
             "RecM02_DST20240827_090302_090334_0_800_800_FF_61B6F0.mp4"
             (JS.Fin 2) (JS.Fin 2) (JS.Fin 10)) :: log,
        Return (Some {| detectionClasses := ["package"] |}))) /\
  In ("package_event", (37, 1)) FLAGS_HUB_V2 /\
  4 * Z.of_nat (String.length "FF") <= 37 /\
  decoded "FF" (JS.Fin 2) hub "package_event" = Some (JS.Fin 1) /\
  Spec.decode_field "FF" 37 1 = 0.
Proof.
  split; [eexists; vm_compute; reflexivity |].
  split; [unfold FLAGS_HUB_V2; simpl; tauto |].
  repeat apply conj; vm_compute; try reflexivity. discriminate.
Qed.

End Divergence.

(** ** The pinned regression vector *)

Section PinnedVector.

(** C2, as stated, does not hold: at the pinned payload ["6D28808"] the
    decoder does return the double-reversal value for each of the four
    detection bits, but that value is not different from what the other
    extractions give.  For [ai_fd] the extraction without any reversal
    gives the same 0, and reversing the payload alone gives the decoder's
    value for all four fields, each being one bit wide. *)
Lemma pinned_vector_not_discriminating :
  ~ (forall name off, In (name, off) pinnedFields ->
       decoded "6D28808" (JS.Fin 2) cam name =
         Some (JS.Fin (Spec.decode_field "6D28808" off 1)) /\
       decoded "6D28808" (JS.Fin 2) cam name <>
         Some (JS.Fin (Spec.payload_reversal_only "6D28808" off 1)) /\
       decoded "6D28808" (JS.Fin 2) cam name <>
         Some (JS.Fin (Spec.field_reversal_only "6D28808" off 1)) /\
       decoded "6D28808" (JS.Fin 2) cam name <>
         Some (JS.Fin (Spec.no_reversal "6D28808" off 1))).
Proof.
  intros H.
  destruct (H "ai_fd" 18) as (_ & _ & _ & Hno); [simpl; tauto |].
  apply Hno. vm_compute. reflexivity.
Qed.

(** C2, amended.  For the payload ["6D28808"] and the camera schema of
    version 2, the decoder returns for each of [ai_pd], [ai_fd], [ai_vd]
    and [ai_ad] the value of the double reversal of section 4.2, which is
    the bit given by the bit-offset formula, here 0 for all four.
    Reversing the payload alone gives the same four values; the extraction
    without reversal (and the one reversing the field alone) gives 1 for
    [ai_pd] and [ai_ad], and agrees with the decoder on [ai_fd] and
    [ai_vd]. *)
Theorem pinned_vector :
  getProp (FLAGS_MAPPING cam) (JS.Fin 2) = Some FLAGS_CAM_V2 /\
  (forall name off, In (name, off) pinnedFields ->
     In (name, (off, 1)) FLAGS_CAM_V2 /\
     decoded "6D28808" (JS.Fin 2) cam name =
       Some (JS.Fin (Spec.decode_field "6D28808" off 1)) /\
     Spec.decode_field "6D28808" off 1 = Spec.formula_bit "6D28808" off /\
     Spec.formula_bit "6D28808" off = 0 /\
     Spec.payload_reversal_only "6D28808" off 1 = Spec.decode_field "6D28808" off 1 /\
     Spec.field_reversal_only "6D28808" off 1 = Spec.no_reversal "6D28808" off 1) /\
  Spec.no_reversal "6D28808" 17 1 = 1 /\
  Spec.no_reversal "6D28808" 18 1 = 0 /\
  Spec.no_reversal "6D28808" 19 1 = 0 /\
  Spec.no_reversal "6D28808" 20 1 = 1.
Proof.
  split; [vm_compute; reflexivity |].
  split; [| repeat apply conj; vm_compute; reflexivity].
  intros name off Hin. unfold pinnedFields in Hin. simpl in Hin.
  destruct Hin as [[= <- <-] | [[= <- <-] | [[= <- <-] | [[= <- <-] | []]]]];
    (split; [unfold FLAGS_CAM_V2; simpl; tauto |]);
    repeat apply conj; vm_compute; reflexivity.
Qed.

End PinnedVector.

(** ** The double reversal in closed form *)

Section MsbFirst.

Lemma parse2_snoc (bits : list bool) (b : bool) :
  Spec.parse2 (bits ++ [b]) = 2 * Spec.parse2 bits + Z.b2z b.
Proof. unfold Spec.parse2. now rewrite fold_left_app. Qed.

(** Bit [i] of a number reversed on [n] bits is bit [n - 1 - i] of the
    number. *)
Lemma reversed_testbit (n : nat) (z i : Z) :
  0 <= i ->
  Z.testbit (Spec.parse2 (rev (Spec.render n z))) i =
  (i <? Z.of_nat n) && Z.testbit z (Z.of_nat n - 1 - i).
Proof.
  revert i. induction n as [| n IH]; intros i Hi.
  - change (Spec.parse2 (rev (Spec.render 0 z))) with 0.
    rewrite Z.bits_0. destruct (Z.ltb_spec i (Z.of_nat 0)); [lia | reflexivity].
  - rewrite render_S. cbn [rev]. rewrite parse2_snoc.
    destruct (Z.eq_dec i 0) as [-> | Hne].
    + rewrite Z.testbit_0_r.
      destruct (Z.ltb_spec 0 (Z.of_nat (S n))); [| lia].
      cbn [andb]. f_equal. lia.
    + replace i with (Z.succ (i - 1)) at 1 by lia.
      rewrite Z.testbit_succ_r, IH by lia.
      destruct (Z.ltb_spec (i - 1) (Z.of_nat n)) as [Hlt | Hge];
        destruct (Z.ltb_spec i (Z.of_nat (S n))) as [Hlt' | Hge'];
        cbn [andb]; try reflexivity; try lia.
      f_equal. lia.
Qed.

(** The two reversals of section 4.2 cancel into a plain extraction that
    counts the bits from the most significant end of the payload. *)
Lemma double_reversal_msb_first (payload : string) (off w : Z) :
  0 <= off -> 0 <= w ->
  Spec.decode_field payload off w =
  Z.shiftr (Spec.parse16 payload)
           (4 * Z.of_nat (String.length payload) - off - w) mod 2 ^ w.
Proof.
  intros Hoff Hw. unfold Spec.decode_field, Spec.raw_rev.
  rewrite segment_mod by lia.
  apply Z.bits_inj'. intros k Hk.
  rewrite reversed_testbit, Z2Nat.id by lia.
  rewrite <- !(Z.land_ones _ w) by lia. rewrite !Z.land_spec.
  destruct (Z.ltb_spec k w) as [Hlt | Hge].
  - rewrite !Z.ones_spec_low, !andb_true_r by lia. cbn [andb].
    rewrite !Z.shiftr_spec, reversed_testbit by lia.
    replace (Z.of_nat (4 * String.length payload))
      with (4 * Z.of_nat (String.length payload)) by lia.
    destruct (Z.ltb_spec (w - 1 - k + off) (4 * Z.of_nat (String.length payload)))
      as [Hin | Hout]; cbn [andb].
    + f_equal. lia.
    + symmetry. apply Z.testbit_neg_r. lia.
  - rewrite (Z.ones_spec_high w k) by lia. now rewrite andb_false_r.
Qed.

Lemma msb_first_value (payload : string) (version : JS.number)
    (devType : DevType) (flags : Flags) (name : string) (off w : Z) :
  Spec.isHex payload = true -> (1 <= String.length payload <= 13)%nat ->
  getProp (FLAGS_MAPPING devType) version = Some flags ->
  In (name, (off, w)) flags -> off + w <= 31 ->
  JS.parseInt payload 16 = JS.Fin (Spec.parse16 payload) /\
  decoded payload version devType name =
    Some (JS.Fin (Z.shiftr (Spec.parse16 payload)
                    (4 * Z.of_nat (String.length payload) - off - w) mod 2 ^ w)).
Proof.
  intros Hhex Hlen Hflags Hin Hfit.
  destruct (registry_fields_shape _ _ _ _ _ _ Hflags Hin) as [Hoff Hw].
  split.
  - rewrite parseInt_hex by (try assumption; intros ->; simpl in Hlen; lia).
    apply ofZ_small. pose proof (parse16_range payload Hhex) as Hr.
    assert (16 ^ Z.of_nat (String.length payload) <= 16 ^ 13)
      by (apply Z.pow_le_mono_r; lia).
    lia.
  - rewrite (decoder_agrees_below_bit_31 payload version devType flags name off w)
      by assumption.
    now rewrite double_reversal_msb_first by lia.
Qed.

(** X8.  On a payload of 1 to 13 hexadecimal digits, a field of a
    registered schema that ends below bit 32 is decoded to the [w] bits of
    the payload that start [off] bits after its most significant bit; the
    bits of a field that runs past the end of the payload count as 0. *)
Theorem decoded_msb_first (payload : string) (version : JS.number)
    (devType : DevType) (flags : Flags) (name : string) (off w : Z) :
  Spec.isHex payload = true -> (1 <= String.length payload <= 13)%nat ->
  getProp (FLAGS_MAPPING devType) version = Some flags ->
  In (name, (off, w)) flags -> off + w <= 31 ->
  JS.parseInt payload 16 = JS.Fin (Spec.parse16 payload) /\
  decoded payload version devType name =
    Some (JS.Fin (Z.shiftr (Spec.parse16 payload)
                    (4 * Z.of_nat (String.length payload) - off - w) mod 2 ^ w)).
Proof. exact (msb_first_value payload version devType flags name off w). Qed.

Lemma decoded_msb_first_witness :
  decoded "6D28808" (JS.Fin 2) cam "framerate" =
    Some (JS.Fin (Z.shiftr (Spec.parse16 "6D28808") (4 * 7 - 8 - 7) mod 2 ^ 7)).
Proof.
  refine (proj2 (decoded_msb_first "6D28808" (JS.Fin 2) cam FLAGS_CAM_V2
                   "framerate" 8 7 _ _ _ _ _)).
  - vm_compute. reflexivity.
  - simpl. lia.
  - vm_compute. reflexivity.
  - unfold FLAGS_CAM_V2. simpl. tauto.
  - lia.
Defined.

End MsbFirst.

Section PayloadLength.

Lemma list_ascii_of_string_app (p q : string) :
  list_ascii_of_string (p ++ q) =
  (list_ascii_of_string p ++ list_ascii_of_string q)%list.
Proof.
  rewrite <- (string_of_list_ascii_of_string p) at 1.
  rewrite <- (string_of_list_ascii_of_string q) at 1.
  now rewrite <- string_of_list_ascii_app, list_ascii_of_string_of_list_ascii.
Qed.

Lemma length_append (p q : string) :
  String.length (p ++ q) = (String.length p + String.length q)%nat.
Proof.
  rewrite <- !length_list_ascii_of_string, list_ascii_of_string_app.
  apply length_app.
Qed.

Lemma shiftr_shift_digit (H s : Z) (w : Z) :
  0 <= w ->
  Z.shiftr (16 * H) (s + 4) mod 2 ^ w = Z.shiftr H s mod 2 ^ w.
Proof.
  intros Hw. f_equal. apply Z.bits_inj'. intros k Hk.
  rewrite !Z.shiftr_spec by lia.
  replace (16 * H) with (Z.shiftl H 4) by (rewrite Z.shiftl_mul_pow2; lia).
  destruct (Z.le_gt_cases 0 (k + (s + 4))) as [Hpos | Hneg].
  - rewrite Z.shiftl_spec by lia. f_equal. lia.
  - rewrite Z.testbit_neg_r by lia. symmetry. apply Z.testbit_neg_r. lia.
Qed.

(** X9.  A ["0"] digit appended to a payload of 1 to 12 hexadecimal digits
    changes no field that ends below bit 32: the fields are counted from
    the first digit, and the bits missing at the end of a short payload
    already count as 0. *)
Theorem decoded_trailing_zero (payload : string) (version : JS.number)
    (devType : DevType) (flags : Flags) (name : string) (off w : Z) :
  Spec.isHex payload = true -> (1 <= String.length payload <= 12)%nat ->
  getProp (FLAGS_MAPPING devType) version = Some flags ->
  In (name, (off, w)) flags -> off + w <= 31 ->
  decoded (payload ++ "0") version devType name =
  decoded payload version devType name.
Proof.
  intros Hhex Hlen Hflags Hin Hfit.
  destruct (registry_fields_shape _ _ _ _ _ _ Hflags Hin) as [Hoff Hw].
  assert (Hhex' : Spec.isHex (payload ++ "0") = true).
  { unfold Spec.isHex in *. rewrite list_ascii_of_string_app, forallb_app, Hhex.
    reflexivity. }
  assert (Hlen' : String.length (payload ++ "0") = S (String.length payload)).
  { rewrite length_append. simpl. lia. }
  rewrite (proj2 (msb_first_value (payload ++ "0") version devType flags
                    name off w Hhex' ltac:(lia) Hflags Hin Hfit)).
  rewrite (proj2 (msb_first_value payload version devType flags
                    name off w Hhex ltac:(lia) Hflags Hin Hfit)).
  do 2 f_equal. rewrite Hlen'.
  assert (Hval : Spec.parse16 (payload ++ "0") = 16 * Spec.parse16 payload).
  { unfold Spec.parse16. rewrite list_ascii_of_string_app, fold_left_app.
    simpl. lia. }
  rewrite Hval.
  replace (4 * Z.of_nat (S (String.length payload)) - off - w)
    with (4 * Z.of_nat (String.length payload) - off - w + 4) by lia.
  apply shiftr_shift_digit. lia.
Qed.

Lemma decoded_trailing_zero_witness :
  decoded ("6D28808" ++ "0") (JS.Fin 2) cam "is_motion_record" =
  decoded "6D28808" (JS.Fin 2) cam "is_motion_record".
Proof.
  apply (decoded_trailing_zero "6D28808" (JS.Fin 2) cam FLAGS_CAM_V2
           "is_motion_record" 24 1).
  - vm_compute. reflexivity.
  - simpl. lia.
  - vm_compute. reflexivity.
  - unfold FLAGS_CAM_V2. simpl. tauto.
  - lia.
Defined.

(** X10.  On a payload of 1 to 13 hexadecimal digits, a field that ends
    below bit 32 and starts at or after the last bit of the payload is
    decoded to 0. *)
Theorem decoded_past_end (payload : string) (version : JS.number)
    (devType : DevType) (flags : Flags) (name : string) (off w : Z) :
  Spec.isHex payload = true -> (1 <= String.length payload <= 13)%nat ->
  getProp (FLAGS_MAPPING devType) version = Some flags ->
  In (name, (off, w)) flags -> off + w <= 31 ->
  4 * Z.of_nat (String.length payload) <= off ->
  decoded payload version devType name = Some (JS.Fin 0).
Proof.
  intros Hhex Hlen Hflags Hin Hfit Hpast.
  destruct (registry_fields_shape _ _ _ _ _ _ Hflags Hin) as [Hoff Hw].
  rewrite (proj2 (msb_first_value payload version devType flags
                    name off w Hhex Hlen Hflags Hin Hfit)).
  do 2 f_equal. rewrite <- Z.land_ones by lia.
  apply Z.bits_inj'. intros k Hk.
  rewrite Z.land_spec, Z.shiftr_spec, Z.bits_0 by lia.
  destruct (Z.ltb_spec k w) as [Hlt | Hge].
  - rewrite Z.testbit_neg_r by lia. reflexivity.
  - rewrite Z.ones_spec_high by lia. apply andb_false_r.
Qed.

Lemma decoded_past_end_witness :
  decoded "6D28" (JS.Fin 2) cam "is_motion_record" = Some (JS.Fin 0).
Proof.
  apply (decoded_past_end "6D28" (JS.Fin 2) cam FLAGS_CAM_V2
           "is_motion_record" 24 1).
  - vm_compute. reflexivity.
  - simpl. lia.
  - vm_compute. reflexivity.
  - unfold FLAGS_CAM_V2. simpl. tauto.
  - lia.
  - simpl. lia.
Defined.

End PayloadLength.

(** ** Payloads that are not numbers, and versions without a schema *)

Section EdgeCases.

(** X6.  [decodeHexToFlags] throws exactly when [FLAGS_MAPPING] has no
    schema for the version it is given: it returns for the camera versions
    2, 3, 4 and 9 and the hub versions 0, 1 and 2, and throws for every
    other number, NaN included, whatever the payload. *)
Theorem decodeHexToFlags_throws_iff (hexValue : string) (version : JS.number)
    (devType : DevType) :
  decodeHexToFlags hexValue version devType = Throw <->
  ~ exists z, version = JS.Fin z /\
              In z (match devType with cam => [2; 3; 4; 9] | hub => [0; 1; 2] end).
Proof.
  unfold decodeHexToFlags.
  destruct (getProp (FLAGS_MAPPING devType) version) as [flags |] eqn:Hflags;
    simpl; split.
  - discriminate.
  - intros Hnot. exfalso. apply Hnot.
    destruct version as [| s | z]; try discriminate. exists z. split; [reflexivity |].
    simpl in Hflags. destruct devType; unfold FLAGS_MAPPING in Hflags; simpl;
      repeat (rewrite lookup_insert in Hflags; case_decide; [lia |]);
      rewrite lookup_empty in Hflags; discriminate.
  - intros _ (z & -> & Hz). simpl in Hflags.
    destruct devType; simpl in Hz;
      repeat (destruct Hz as [<- | Hz]; [vm_compute in Hflags; discriminate |]);
      destruct Hz.
  - reflexivity.
Qed.

Lemma padStart0_list (s : string) (n : JS.number) :
  exists k, list_ascii_of_string (JS.padStart0 s n) =
            (repeat "0"%char k ++ list_ascii_of_string s)%list.
Proof.
  unfold JS.padStart0.
  destruct (JS.ToLength n <=? Z.of_nat (String.length s)).
  - now exists 0%nat.
  - eexists. now rewrite list_ascii_of_string_app, list_ascii_of_string_of_list_ascii.
Qed.

Lemma rev_repeat {A} (x : A) (k : nat) : rev (repeat x k) = repeat x k.
Proof.
  induction k as [| k IH]; [reflexivity |].
  cbn [repeat rev]. rewrite IH. symmetry. apply repeat_cons.
Qed.

(** When the payload does not parse to a finite number, neither does its
    reversal: the text of NaN or of an infinity, padded and reversed, starts
    with a letter. *)
Lemma reversePayload_not_finite (hexValue : string) :
  (forall z, JS.parseInt hexValue 16 <> JS.Fin z) ->
  reversePayload hexValue = JS.NaN.
Proof.
  intros Hnot. unfold reversePayload.
  destruct (padStart0_list (JS.toString2 (JS.parseInt hexValue 16))
              (JS.mul (JS.length hexValue) (JS.Fin 4))) as [k Hk].
  unfold JS.reverse. rewrite Hk, rev_app_distr, rev_repeat.
  destruct (JS.parseInt hexValue 16) as [| [|] | z];
    [reflexivity | reflexivity | reflexivity | now destruct (Hnot z)].
Qed.

Lemma decodeFlag_NaN devType version flags name off w :
  getProp (FLAGS_MAPPING devType) version = Some flags ->
  In (name, (off, w)) flags ->
  decodeFlag JS.NaN (JS.Fin off) (JS.Fin w) = JS.Fin 0.
Proof.
  intros H Hin. apply registry_cases in H as [-> | [-> | [-> | ->]]];
    unfold FLAGS_CAM_V2, FLAGS_HUB_V1, FLAGS_HUB_V0, FLAGS_HUB_V2 in Hin;
    simpl in Hin;
    repeat (destruct Hin as [[= <- <- <-] | Hin]; [vm_compute; reflexivity |]);
    destruct Hin.
Qed.

Lemma classify_all_zero (flagValues : gmap string JS.number) :
  (forall key v, flagValues !! key = Some v -> v = JS.Fin 0) ->
  classify flagValues = ["motion"].
Proof.
  intros Hzero.
  assert (Hoff : forall key, flagSet flagValues key = false).
  { intros key. unfold flagSet. destruct (flagValues !! key) as [v |] eqn:Hk;
      [| reflexivity]. now rewrite (Hzero _ _ Hk). }
  unfold classify. now rewrite !Hoff.
Qed.

Lemma decodeHexToFlags_lookup hexValue version devType flags :
  getProp (FLAGS_MAPPING devType) version = Some flags ->
  exists flagValues,
    decodeHexToFlags hexValue version devType = Return flagValues /\
    dom flagValues = list_to_set flags.*1 /\
    forall name off w, In (name, (off, w)) flags ->
      flagValues !! name =
        Some (decodeFlag (reversePayload hexValue) (JS.Fin off) (JS.Fin w)).
Proof.
  intros Hflags. unfold decodeHexToFlags. rewrite Hflags. simpl.
  exists (storeFlags
            (fun p s => decodeFlag (reversePayload hexValue) (JS.Fin p) (JS.Fin s))
            flags ∅).
  split; [reflexivity |]. split.
  - rewrite storeFlags_dom. set_solver.
  - intros name off w Hin.
    exact (storeFlags_lookup
             (fun p s => decodeFlag (reversePayload hexValue) (JS.Fin p) (JS.Fin s))
             flags ∅ name off w (registry_NoDup _ _ _ Hflags) Hin).
Qed.

(** X7.  A payload that [parseInt] cannot read as a finite number (the
    empty payload, one that starts with a letter past F, ...) is decoded
    with every field 0, and the file is classified as plain motion. *)
Theorem not_a_number_payload (hexValue : string) (version : JS.number)
    (devType : DevType) (flags : Flags) :
  (forall z, JS.parseInt hexValue 16 <> JS.Fin z) ->
  getProp (FLAGS_MAPPING devType) version = Some flags ->
  exists flagValues,
    decodeHexToFlags hexValue version devType = Return flagValues /\
    (forall name off w, In (name, (off, w)) flags ->
       flagValues !! name = Some (JS.Fin 0)) /\
    classify flagValues = ["motion"].
Proof.
  intros Hnot Hflags.
  destruct (decodeHexToFlags_lookup hexValue version devType flags Hflags)
    as (fv & Hdec & Hdom & Hval).
  rewrite (reversePayload_not_finite _ Hnot) in Hval.
  assert (Hzero : forall name off w, In (name, (off, w)) flags ->
                                     fv !! name = Some (JS.Fin 0)).
  { intros name off w Hin. rewrite (Hval _ _ _ Hin).
    f_equal. exact (decodeFlag_NaN _ _ _ _ _ _ Hflags Hin). }
  exists fv. split; [exact Hdec |]. split; [exact Hzero |].
  apply classify_all_zero. intros key v Hkey.
  assert (Hin : key ∈ dom fv) by (apply elem_of_dom; eauto).
  rewrite Hdom, elem_of_list_to_set, list_elem_of_fmap in Hin.
  destruct Hin as ([name [off w]] & -> & Hin). simpl in Hkey.
  apply list_elem_of_In in Hin. rewrite (Hzero _ _ _ Hin) in Hkey.
  congruence.
Qed.

Lemma not_a_number_payload_witness :
  exists flagValues,
    decodeHexToFlags "" (JS.Fin 2) hub = Return flagValues /\
    (forall name off w, In (name, (off, w)) FLAGS_HUB_V2 ->
       flagValues !! name = Some (JS.Fin 0)) /\
    classify flagValues = ["motion"].
Proof.
  apply (not_a_number_payload "" (JS.Fin 2) hub FLAGS_HUB_V2).
  - intros z. vm_compute. discriminate.
  - vm_compute. reflexivity.
Defined.

End EdgeCases.

(** ** The hub fields above bit 31 *)

Section HubFields.

Lemma registry_has_resolution_index devType version flags :
  getProp (FLAGS_MAPPING devType) version = Some flags ->
  In ("resolution_index", (0, 7)) flags.
Proof.
  intros H. apply registry_cases in H as [-> | [-> | [-> | ->]]];
    unfold FLAGS_CAM_V2, FLAGS_HUB_V1, FLAGS_HUB_V0, FLAGS_HUB_V2; simpl; tauto.
Qed.

(** X11.  For every payload string, a one-bit field that a registered
    schema declares at an offset from 35 to 38 is decoded to a bit of the
    decoded [resolution_index]: the field at offset 35
    ([package_delivered]) to its bit 3, at 36 ([package_takenaway]) to bit
    2, at 37 ([package_event]) to bit 1 and at 38 ([upload_flag]) to bit
    0.  The shift count of [<<] and [>>] is taken modulo 32, so these
    fields read bits 3 to 6 of the reversed payload, which
    [resolution_index] covers. *)
Theorem high_fields_alias_resolution_index (hexValue : string)
    (version : JS.number) (devType : DevType) (flags : Flags)
    (name : string) (off : Z) :
  getProp (FLAGS_MAPPING devType) version = Some flags ->
  In (name, (off, 1)) flags -> 35 <= off <= 38 ->
  exists r,
    decoded hexValue version devType "resolution_index" = Some (JS.Fin r) /\
    0 <= r < 128 /\
    decoded hexValue version devType name =
      Some (JS.Fin (Z.b2z (Z.testbit r (38 - off)))).
Proof.
  intros Hflags Hin Hoff.
  destruct (decodeHexToFlags_lookup hexValue version devType flags Hflags)
    as (fv & Hdec & _ & Hval).
  unfold decoded. rewrite Hdec.
  rewrite (Hval _ _ _ (registry_has_resolution_index _ _ _ Hflags)).
  rewrite (Hval _ _ _ Hin).
  set (x := JS.ToInt32 (reversePayload hexValue)).
  rewrite (decodeFlag_low _ 0 7) by (try lia; vm_compute; discriminate).
  assert (Hmod : off mod 32 = off - 32).
  { rewrite <- (Z.mod_small (off - 32) 32) by lia.
    replace off with (off - 32 + 1 * 32) at 1 by lia. apply Z.mod_add. lia. }
  rewrite (decodeFlag_low _ off 1) by lia.
  fold x. rewrite Hmod. change (0 mod 32) with 0. rewrite Z.shiftr_0_r.
  eexists. split; [reflexivity |]. split.
  - pose proof (parse2_range (rev (Spec.render (Z.to_nat 7) (x mod 2 ^ 7)))) as Hr.
    rewrite length_rev, render_length in Hr. exact Hr.
  - do 2 f_equal.
    rewrite reversed_testbit by lia.
    change (Z.of_nat (Z.to_nat 7)) with 7.
    destruct (Z.ltb_spec (38 - off) 7) as [_ | Hge]; [| lia]. cbn [andb].
    rewrite Z.mod_pow2_bits_low by lia.
    replace (7 - 1 - (38 - off)) with (off - 32) by lia.
    change (Z.to_nat 1) with 1%nat.
    unfold Spec.render, Spec.parse2. cbn [seq map rev app fold_left].
    change (2 * 0) with 0. rewrite Z.add_0_l. f_equal.
    change (2 ^ 1) with 2. rewrite <- Z.bit0_mod, Z.b2z_bit0.
    change (Z.of_nat 0) with 0.
    rewrite Z.bit0_odd, <- Z.bit0_odd, Z.shiftr_spec by lia. f_equal.
Qed.

Lemma high_fields_alias_resolution_index_witness :
  exists r,
    decoded "FE00000000" (JS.Fin 2) hub "resolution_index" = Some (JS.Fin r) /\
    0 <= r < 128 /\
    decoded "FE00000000" (JS.Fin 2) hub "package_event" =
      Some (JS.Fin (Z.b2z (Z.testbit r (38 - 37)))).
Proof.
  apply (high_fields_alias_resolution_index "FE00000000" (JS.Fin 2) hub
           FLAGS_HUB_V2 "package_event" 37).
  - vm_compute. reflexivity.
  - unfold FLAGS_HUB_V2. simpl. tauto.
  - lia.
Defined.

(** X12.  The schema of hub version 1 is the schema of version 0 with
    [package_event] added: every field of version 0 is decoded to the same
    value under both versions, and [package_event] is a key of the result
    under version 1 only. *)
Theorem hub_v1_extends_v0 (hexValue name : string) :
  (In name FLAGS_HUB_V0.*1 ->
   is_Some (decoded hexValue (JS.Fin 0) hub name) /\
   decoded hexValue (JS.Fin 1) hub name = decoded hexValue (JS.Fin 0) hub name) /\
  decoded hexValue (JS.Fin 0) hub "package_event" = None /\
  is_Some (decoded hexValue (JS.Fin 1) hub "package_event").
Proof.
  assert (H0 : getProp (FLAGS_MAPPING hub) (JS.Fin 0) = Some FLAGS_HUB_V0)
    by (vm_compute; reflexivity).
  assert (H1 : getProp (FLAGS_MAPPING hub) (JS.Fin 1) = Some FLAGS_HUB_V1)
    by (vm_compute; reflexivity).
  destruct (decodeHexToFlags_lookup hexValue _ _ _ H0) as (fv0 & Hdec0 & Hdom0 & Hval0).
  destruct (decodeHexToFlags_lookup hexValue _ _ _ H1) as (fv1 & Hdec1 & Hdom1 & Hval1).
  unfold decoded. rewrite Hdec0, Hdec1. split; [| split].
  - intros Hin. apply in_map_iff in Hin as ([n [off w]] & Hn & Hin).
    simpl in Hn. subst n.
    rewrite (Hval0 _ _ _ Hin).
    rewrite (Hval1 name off w) by (unfold FLAGS_HUB_V1; apply in_or_app; now left).
    split; [eauto | reflexivity].
  - apply not_elem_of_dom. rewrite Hdom0, elem_of_list_to_set.
    intros H. apply list_elem_of_In in H. simpl in H.
    repeat (destruct H as [H | H]; [discriminate H |]). exact H.
  - rewrite (Hval1 "package_event" 37 1); [eauto |].
    unfold FLAGS_HUB_V1. apply in_or_app. right. simpl. tauto.
Qed.

End HubFields.

(** ** What [parseFileName] returns *)

Section Results.

Lemma tokenize_Some fileName name log t :
  tokenize fileName name = (log, Return (Some t)) ->
  log = [] /\ is_Some (hexValue t) /\
  exists tok0 rest, Str.split "_" name = tok0 :: rest /\ headerOk tok0 = true /\
    (List.length (tok0 :: rest) = 6%nat /\ devType t = cam \/
     List.length (tok0 :: rest) = 9%nat /\ devType t = hub).
Proof.
  intros Ht. destruct (split_cons "_" name) as (tok0 & rest & Hsplit).
  destruct (headerOk tok0) eqn:Hhead.
  2:{ rewrite (tokenize_bad_header _ _ _ _ Hsplit Hhead) in Ht. discriminate. }
  destruct (Nat.eq_dec (List.length (tok0 :: rest)) 6%nat) as [H6 | H6];
    [| destruct (Nat.eq_dec (List.length (tok0 :: rest)) 9%nat) as [H9 | H9]].
  - destruct (tokenize_six fileName name tok0 rest Hsplit Hhead H6)
      as (t' & hex & size & Ht' & Hdev & _ & Hhex & _).
    rewrite Ht' in Ht. injection Ht as <- <-.
    split; [reflexivity |]. split; [eauto |]. exists tok0, rest. eauto.
  - destruct (tokenize_nine fileName name tok0 rest Hsplit Hhead H9)
      as (t' & hex & size & Ht' & Hdev & _ & Hhex & _).
    rewrite Ht' in Ht. injection Ht as <- <-.
    split; [reflexivity |]. split; [eauto |]. exists tok0, rest. eauto 6.
  - rewrite (tokenize_bad_count _ _ _ _ Hsplit Hhead H6 H9) in Ht. discriminate.
Qed.

(** Every result comes from a decoded payload: the path of a non-null
    result through [parseFileName]. *)
Lemma parseFileName_inv fileName parsed :
  outcome fileName = Return (Some parsed) ->
  exists name t hex v flags flagValues,
    stem fileName = Return name /\
    tokenize fileName name = ([], Return (Some t)) /\
    hexValue t = Some hex /\
    getProp (FLAGS_MAPPING (devType t)) v = Some flags /\
    decodeHexToFlags hex v (devType t) = Return flagValues /\
    parsed = {| detectionClasses := classify flagValues |}.
Proof.
  unfold outcome, parseFileName. intros Hout.
  destruct (stem fileName) as [name |] eqn:Hstem; [| discriminate].
  destruct (tokenize fileName name) as [log0 [[t |] |]] eqn:Htok;
    try discriminate.
  destruct (tokenize_Some _ _ _ _ Htok) as (-> & [hex Hhex] & _).
  destruct (decodeTokens fileName t) as [log r] eqn:Hdec. simpl in Hout. subst r.
  unfold decodeTokens in Hdec. rewrite Hhex in Hdec.
  pose proof (resolveVersion_registered fileName (devType t) (version t)
                (JS.length hex)) as [flags Hflags].
  destruct (resolveVersion fileName (devType t) (version t) (JS.length hex))
    as [log1 v]. cbn [snd] in Hflags.
  destruct (decodeHexToFlags_returns hex v (devType t) (ex_intro _ flags Hflags))
    as [fv Hfv].
  rewrite Hfv in Hdec. injection Hdec as _ <-.
  exists name, t, hex, v, flags, fv. repeat split; assumption.
Qed.

Ltac classify_cases :=
  unfold classify, pushIf;
  repeat match goal with
         | |- context [flagSet ?m ?k] => destruct (flagSet m k) eqn:?
         end;
  cbn [List.length Nat.eqb app].

Lemma classify_shape (flagValues : gmap string JS.number) :
  classify flagValues <> [] /\ NoDup (classify flagValues) /\
  forall c, In c (classify flagValues) ->
            In c ["person"; "vehicle"; "animal"; "motion"; "package"].
Proof.
  split; [classify_cases; discriminate |].
  split.
  - classify_cases; apply (bool_decide_unpack _); vm_compute; reflexivity.
  - intros c. classify_cases; simpl; tauto.
Qed.

Lemma classify_package (flagValues : gmap string JS.number) :
  In "package" (classify flagValues) -> flagSet flagValues "package_event" = true.
Proof. classify_cases; simpl; intuition congruence. Qed.

(** X14.  Whenever [parseFileName] returns a result, its
    [detectionClasses] is a non-empty list without repetition of names
    among person, vehicle, animal, motion and package. *)
Theorem result_classes_well_formed (fileName : string) (parsed : Parsed) :
  outcome fileName = Return (Some parsed) ->
  detectionClasses parsed <> [] /\ NoDup (detectionClasses parsed) /\
  forall c, In c (detectionClasses parsed) ->
            In c ["person"; "vehicle"; "animal"; "motion"; "package"].
Proof.
  intros Hout.
  destruct (parseFileName_inv _ _ Hout) as (name & t & hex & v & flags & fv & H).
  destruct H as (_ & _ & _ & _ & _ & ->). apply classify_shape.
Qed.

Lemma result_classes_well_formed_witness :
  detectionClasses {| detectionClasses := ["motion"] |} <> [].
Proof.
  refine (proj1 (result_classes_well_formed
                   "Mp4Record/2020-12-22/RecM01_20201222_075939_080140_6D28808_1A468F9.mp4"
                   {| detectionClasses := ["motion"] |} _)).
  vm_compute. reflexivity.
Defined.

Lemma registry_cam version flags :
  getProp (FLAGS_MAPPING cam) version = Some flags -> flags = FLAGS_CAM_V2.
Proof.
  destruct version as [| s | z]; try discriminate. simpl. unfold FLAGS_MAPPING.
  repeat (rewrite lookup_insert; case_decide; [intros [= <-]; reflexivity |]).
  rewrite lookup_empty. discriminate.
Qed.

(** The result for a camera name, whatever its version character. *)
Lemma camera_result fileName name tok0 rest :
  stem fileName = Return name ->
  Str.split "_" name = tok0 :: rest ->
  headerOk tok0 = true -> List.length (tok0 :: rest) = 6%nat ->
  exists hex flagValues,
    (tok0 :: rest) !! 4%nat = Some hex /\
    decodeHexToFlags hex (JS.Fin 2) cam = Return flagValues /\
    dom flagValues = list_to_set FLAGS_CAM_V2.*1 /\
    outcome fileName = Return (Some {| detectionClasses := classify flagValues |}).
Proof.
  intros Hstem Hsplit Hhead Hlen.
  destruct (tokenize_six fileName name tok0 rest Hsplit Hhead Hlen)
    as (t & hex & size & Htok & Hdev & H4 & Hhex & _).
  assert (H2 : getProp (FLAGS_MAPPING cam) (JS.Fin 2) = Some FLAGS_CAM_V2)
    by (vm_compute; reflexivity).
  destruct (decodeHexToFlags_lookup hex _ _ _ H2) as (fv & Hfv & Hdom & _).
  exists hex, fv. split; [exact H4 |]. split; [exact Hfv |]. split; [exact Hdom |].
  unfold outcome. rewrite (parseFileName_of_tokenize _ _ _ _ Hstem Htok).
  unfold decodeTokens. rewrite Hhex, Hdev.
  pose proof (resolveVersion_registered fileName cam (version t)
                (JS.length hex)) as [flags Hflags].
  destruct (resolveVersion fileName cam (version t) (JS.length hex)) as [log1 v].
  cbn [snd] in Hflags. pose proof (registry_cam _ _ Hflags) as ->.
  assert (Hsame : decodeHexToFlags hex v cam = Return fv).
  { unfold decodeHexToFlags in *. rewrite Hflags. rewrite H2 in Hfv. exact Hfv. }
  rewrite Hsame. reflexivity.
Qed.

(** X3.  The result for a camera file name (a stem of 6 tokens with a
    valid header) is a function of its payload token alone: whatever the
    version character, it is the classification of the payload decoded with
    the schema of version 2, all camera versions sharing one table. *)
Theorem camera_result_ignores_version (fileName name : string)
    (tokens : list string) :
  stem fileName = Return name ->
  Str.split "_" name = tokens ->
  headerOk (hd "" tokens) = true -> List.length tokens = 6%nat ->
  exists hex flagValues,
    tokens !! 4%nat = Some hex /\
    decodeHexToFlags hex (JS.Fin 2) cam = Return flagValues /\
    outcome fileName = Return (Some {| detectionClasses := classify flagValues |}).
Proof.
  intros Hstem <- Hhead Hlen.
  destruct (split_cons "_" name) as (tok0 & rest & Hsplit).
  rewrite Hsplit in *. simpl in Hhead.
  destruct (camera_result fileName name tok0 rest Hstem Hsplit Hhead Hlen)
    as (hex & fv & H4 & Hfv & _ & Hout).
  eauto.
Qed.

Lemma camera_result_ignores_version_witness :
  exists hex flagValues,
    Str.split "_" "RecM07_20201222_075939_080140_6D28808_1A468F9" !! 4%nat
      = Some hex /\
    decodeHexToFlags hex (JS.Fin 2) cam = Return flagValues /\
    outcome "RecM07_20201222_075939_080140_6D28808_1A468F9.mp4" =
      Return (Some {| detectionClasses := classify flagValues |}).
Proof.
  apply (camera_result_ignores_version
           "RecM07_20201222_075939_080140_6D28808_1A468F9.mp4"
           "RecM07_20201222_075939_080140_6D28808_1A468F9").
  - vm_compute. reflexivity.
  - reflexivity.
  - vm_compute. reflexivity.
  - vm_compute. reflexivity.
Defined.

(** X13.  A camera file name is never classified as a package event: the
    camera schema has no [package_event] field, so the flag reads as
    [undefined]. *)
Theorem camera_never_package (fileName name : string) (parsed : Parsed) :
  stem fileName = Return name ->
  List.length (Str.split "_" name) = 6%nat ->
  outcome fileName = Return (Some parsed) ->
  ~ In "package" (detectionClasses parsed).
Proof.
  intros Hstem Hlen Hout.
  destruct (parseFileName_inv _ _ Hout) as (name' & t & hex & v & flags & fv & H).
  destruct H as (Hstem' & Htok & _).
  rewrite Hstem in Hstem'. injection Hstem' as <-.
  destruct (tokenize_Some _ _ _ _ Htok) as (_ & _ & tok0 & rest & Hsplit & Hhead & _).
  rewrite Hsplit in Hlen.
  destruct (camera_result fileName name tok0 rest Hstem Hsplit Hhead Hlen)
    as (hex' & fv' & _ & _ & Hdom & Hout').
  rewrite Hout' in Hout. injection Hout as <-. simpl.
  intros Hin. apply classify_package in Hin. unfold flagSet in Hin.
  destruct (fv' !! "package_event") as [x |] eqn:Hx; [| discriminate].
  assert (Hin' : "package_event" ∈ dom fv') by (apply elem_of_dom; eauto).
  rewrite Hdom, elem_of_list_to_set in Hin'. apply list_elem_of_In in Hin'.
  simpl in Hin'. repeat (destruct Hin' as [Hin' | Hin']; [discriminate Hin' |]).
  exact Hin'.
Qed.

Lemma camera_never_package_witness :
  ~ In "package" (detectionClasses {| detectionClasses := ["motion"] |}).
Proof.
  apply (camera_never_package
           "RecM01_20201222_075939_080140_6D28808_1A468F9.mp4"
           "RecM01_20201222_075939_080140_6D28808_1A468F9").
  - vm_compute. reflexivity.
  - vm_compute. reflexivity.
  - vm_compute. reflexivity.
Defined.

End Results.

(** ** Warnings *)

Section Warnings.

Lemma expectedLength_Fin devType version :
  exists e, expectedLength devType version = JS.Fin e.
Proof.
  unfold expectedLength. destruct (getProp (FLAGS_LENGTH devType) version) as [n |];
    [destruct (JS.truthy (JS.Fin n)) |]; eauto.
Qed.

(** X4.  [parseFileName] decodes without any [console.debug] call exactly
    when the version of the file name is registered for its family and the
    payload has the length [FLAGS_LENGTH] gives for that version; its only
    console call is then the [console.log] of the decoded flags. *)
Theorem no_warning_iff (fileName : string) (t : Locals) (hex : string) :
  hexValue t = Some hex ->
  ((forall m, ~ In (console_debug m) (fst (decodeTokens fileName t))) <->
   hasOwnProperty (FLAGS_MAPPING (devType t)) (version t) = true /\
   JS.length hex = expectedLength (devType t) (version t)) /\
  (hasOwnProperty (FLAGS_MAPPING (devType t)) (version t) = true ->
   JS.length hex = expectedLength (devType t) (version t) ->
   exists flagValues,
     decodeHexToFlags hex (version t) (devType t) = Return flagValues /\
     fst (decodeTokens fileName t) =
       [console_log hex (version t) (devType t) flagValues]).
Proof.
  intros Hhex. unfold decodeTokens. rewrite Hhex.
  destruct (hasOwnProperty (FLAGS_MAPPING (devType t)) (version t)) eqn:Hown.
  - rewrite (resolveVersion_known _ _ _ _ Hown).
    destruct (decodeHexToFlags_returns hex (version t) (devType t)
                (proj1 (hasOwnProperty_getProp _ _) Hown)) as [fv Hfv].
    rewrite Hfv. cbn [fst app]. unfold checkLength.
    destruct (expectedLength_Fin (devType t) (version t)) as [e He].
    rewrite He. unfold JS.length, strictNe.
    destruct (Z.eqb_spec (Z.of_nat (String.length hex)) e) as [Heq | Hne];
      cbn [negb app].
    + split.
      * split; [intros _; split; [reflexivity | now rewrite Heq] |].
        intros _ m [Hin | []]. discriminate Hin.
      * intros _ _. exists fv. split; reflexivity.
    + split.
      * split.
        -- intros Hno. exfalso. eapply Hno. left. reflexivity.
        -- intros [_ Hlen]. injection Hlen as Hlen. contradiction.
      * intros _ Hlen. injection Hlen as Hlen. contradiction.
  - rewrite (resolveVersion_unknown _ _ _ _ Hown).
    destruct (decodeHexToFlags_returns hex (JS.Fin (highest (devType t)))
                (devType t) (highest_registered _)) as [fv Hfv].
    rewrite Hfv. cbn [fst app]. split.
    + split.
      * intros Hno. exfalso. eapply Hno. left. reflexivity.
      * intros [Habs _]. discriminate Habs.
    + intros Habs. discriminate Habs.
Qed.

Lemma no_warning_iff_witness :
  exists flagValues,
    decodeHexToFlags "6D28808" (JS.Fin 2) cam = Return flagValues /\
    fst (decodeTokens "RecM02_20201222_075939_080140_6D28808_1A468F9.mp4"
           {| version := JS.Fin 2; devType := cam; startDate := Some "20201222";
              startTime := Some "075939"; endTime := Some "080140";
              hexValue := Some "6D28808"; fileSize := Some "1A468F9" |}) =
      [console_log "6D28808" (JS.Fin 2) cam flagValues].
Proof.
  refine (proj2 (no_warning_iff
                   "RecM02_20201222_075939_080140_6D28808_1A468F9.mp4"
                   {| version := JS.Fin 2; devType := cam;
                      startDate := Some "20201222"; startTime := Some "075939";
                      endTime := Some "080140"; hexValue := Some "6D28808";
                      fileSize := Some "1A468F9" |}
                   "6D28808" eq_refl) _ _).
  - vm_compute. reflexivity.
  - vm_compute. reflexivity.
Defined.

(** X5.  The hub versions 0 and 1 have a schema but no entry in
    [FLAGS_LENGTH], so their expected length is the [|| 0] default: every
    hub file of these versions with a non-empty payload draws the length
    warning, with 0 as the expected length. *)
Theorem hub_v0_v1_always_warn (fileName : string) (t : Locals) (hex : string) :
  devType t = hub -> version t = JS.Fin 0 \/ version t = JS.Fin 1 ->
  hexValue t = Some hex -> hex <> "" ->
  In (console_debug (UnexpectedHexLength fileName (version t) (JS.length hex)
                       (JS.Fin 0)))
     (fst (decodeTokens fileName t)).
Proof.
  intros Hdev Hver Hhex Hne. unfold decodeTokens. rewrite Hhex, Hdev.
  assert (Hlen : (0 < String.length hex)%nat)
    by (destruct hex; [congruence | simpl; lia]).
  destruct Hver as [-> | ->].
  - rewrite resolveVersion_known by (vm_compute; reflexivity).
    destruct (decodeHexToFlags_returns hex (JS.Fin 0) hub) as [fv ->];
      [vm_compute; eauto |].
    cbn [fst app]. unfold checkLength.
    change (expectedLength hub (JS.Fin 0)) with (JS.Fin 0).
    unfold JS.length, strictNe.
    destruct (Z.eqb_spec (Z.of_nat (String.length hex)) 0); [lia |].
    left. reflexivity.
  - rewrite resolveVersion_known by (vm_compute; reflexivity).
    destruct (decodeHexToFlags_returns hex (JS.Fin 1) hub) as [fv ->];
      [vm_compute; eauto |].
    cbn [fst app]. unfold checkLength.
    change (expectedLength hub (JS.Fin 1)) with (JS.Fin 0).
    unfold JS.length, strictNe.
    destruct (Z.eqb_spec (Z.of_nat (String.length hex)) 0); [lia |].
    left. reflexivity.
Qed.

Lemma hub_v0_v1_always_warn_witness :
  In (console_debug
        (UnexpectedHexLength "RecM01_a_b_c_0_800_800_033C820000_61B6F0.mp4"
           (JS.Fin 1) (JS.length "033C820000") (JS.Fin 0)))
     (fst (decodeTokens "RecM01_a_b_c_0_800_800_033C820000_61B6F0.mp4"
             {| version := JS.Fin 1; devType := hub; startDate := Some "a";
                startTime := Some "b"; endTime := Some "c";
                hexValue := Some "033C820000"; fileSize := Some "61B6F0" |})).
Proof.
  apply (hub_v0_v1_always_warn "RecM01_a_b_c_0_800_800_033C820000_61B6F0.mp4"
           {| version := JS.Fin 1; devType := hub; startDate := Some "a";
              startTime := Some "b"; endTime := Some "c";
              hexValue := Some "033C820000"; fileSize := Some "61B6F0" |}
           "033C820000").
  - reflexivity.
  - right. reflexivity.
  - reflexivity.
  - discriminate.
Defined.

End Warnings.

(** ** The version character *)

Section VersionCharacter.

Lemma parseInt_char (c : ascii) :
  JS.parseInt (String c "") 0 =
  let n := Z.of_N (N_of_ascii c) in
  if (48 <=? n) && (n <=? 57) then JS.Fin (n - 48) else JS.NaN.
Proof. destruct c as [[] [] [] [] [] [] [] []]; vm_compute; reflexivity. Qed.

Lemma get_5_of_6 (s : string) :
  String.length s = 6%nat -> exists c, String.get 5 s = Some c.
Proof.
  destruct s as [| c0 [| c1 [| c2 [| c3 [| c4 [| c5 [| c6 s]]]]]]];
    try discriminate. intros _. exists c5. reflexivity.
Qed.

(** X2.  The version the tokenizer hands on is read from the sixth code
    unit of the header alone: the value of that code unit when it is a
    decimal digit, and NaN for any other code unit (a letter, a sign, a
    space), which is then registered for no family. *)
Theorem version_of_header (fileName name : string) (log : list ConsoleCall)
    (t : Locals) :
  tokenize fileName name = (log, Return (Some t)) ->
  exists c,
    String.get 5 (hd "" (Str.split "_" name)) = Some c /\
    let n := Z.of_N (N_of_ascii c) in
    version t = (if (48 <=? n) && (n <=? 57) then JS.Fin (n - 48) else JS.NaN) /\
    (version t = JS.NaN ->
     forall family, hasOwnProperty (FLAGS_MAPPING family) (version t) = false).
Proof.
  intros Ht.
  destruct (tokenize_Some _ _ _ _ Ht) as (_ & _ & tok0 & rest & Hsplit & Hhead & _).
  rewrite Hsplit. simpl hd.
  assert (Hsix : String.length tok0 = 6%nat).
  { unfold headerOk in Hhead. apply andb_prop in Hhead as [_ H].
    now apply Nat.eqb_eq in H. }
  destruct (get_5_of_6 tok0 Hsix) as [c Hc]. exists c. split; [exact Hc |].
  assert (Hv : version t = JS.parseInt (String c "") 0).
  { unfold tokenize in Ht. rewrite Hsplit in Ht.
    change ((tok0 :: rest) !! 0%nat) with (Some tok0) in Ht. cbv beta iota in Ht.
    unfold headerOk in Hhead. rewrite <- negb_andb, Hhead, Hc in Ht.
    cbv beta iota in Ht.
    destruct (List.length (tok0 :: rest) =? 6)%nat;
      [| destruct (List.length (tok0 :: rest) =? 9)%nat];
      try discriminate Ht; injection Ht as _ Ht; subst t; reflexivity. }
  cbv zeta. rewrite Hv, parseInt_char. cbv zeta. split; [reflexivity |].
  intros -> family. reflexivity.
Qed.

Lemma version_of_header_witness :
  exists c,
    String.get 5 (hd "" (Str.split "_" "RecM0x_1_2_3_6D28808_5")) = Some c /\
    let n := Z.of_N (N_of_ascii c) in
    JS.NaN = (if (48 <=? n) && (n <=? 57) then JS.Fin (n - 48) else JS.NaN) /\
    (JS.NaN = JS.NaN ->
     forall family, hasOwnProperty (FLAGS_MAPPING family) JS.NaN = false).
Proof.
  exact (version_of_header "RecM0x_1_2_3_6D28808_5.mp4" "RecM0x_1_2_3_6D28808_5"
           []
           {| version := JS.NaN; devType := cam; startDate := Some "1";
              startTime := Some "2"; endTime := Some "3";
              hexValue := Some "6D28808"; fileSize := Some "5" |}
           eq_refl).
Defined.

End VersionCharacter.

(** ** The schema tables *)

Section Tables.

Lemma tiles_ordered (start : Z) (flags : Flags) :
  tiles start flags = true ->
  (forall name off w, In (name, (off, w)) flags ->
     start <= off /\ 0 < w /\ off + w <= start + declaredBits flags) /\
  forall (i j : nat) e1 e2,
    flags !! i = Some e1 -> flags !! j = Some e2 -> (i < j)%nat ->
    fst (snd e1) + snd (snd e1) <= fst (snd e2).
Proof.
  revert start. induction flags as [| [n [o w]] rest IH]; intros start Ht.
  - split; [intros name off w [] | intros i j e1 e2 H; discriminate H].
  - cbn [tiles] in Ht. apply andb_prop in Ht as [Ht Hrest].
    apply andb_prop in Ht as [Ho Hw]. apply Z.eqb_eq in Ho. apply Z.ltb_lt in Hw.
    subst o. destruct (IH _ Hrest) as [Hin Hord]. cbn [declaredBits fold_right snd].
    fold (declaredBits rest). split.
    + intros name off w' [[= <- <- <-] | H].
      * assert (0 <= declaredBits rest).
        { clear -Hrest. revert Hrest. generalize (start + w).
          induction rest as [| [n' [o' w']] rest IHr]; intros s Hs; [simpl; lia |].
          cbn [tiles] in Hs. apply andb_prop in Hs as [Hs Hr].
          apply andb_prop in Hs as [_ Hw']. apply Z.ltb_lt in Hw'.
          specialize (IHr _ Hr). cbn [declaredBits fold_right snd].
          fold (declaredBits rest). lia. }
        lia.
      * destruct (Hin _ _ _ H) as (H1 & H2 & H3). lia.
    + intros i j e1 e2 Hi Hj Hij. destruct j as [| j]; [lia |].
      cbn in Hj. destruct i as [| i].
      * injection Hi as <-. cbn [fst snd].
        destruct e2 as [n2 [o2 w2]]. cbn [fst snd].
        apply list_elem_of_lookup_2, list_elem_of_In in Hj.
        destruct (Hin _ _ _ Hj) as (H1 & _). lia.
      * cbn in Hi. apply (Hord i j e1 e2 Hi Hj). lia.
Qed.

(** X15.  In every schema of [FLAGS_MAPPING] the declared fields tile the
    bits from 0 upward: no two fields overlap and there is no gap.  Every
    version that has an expected length in [FLAGS_LENGTH] has a schema, and
    the declared bits of that schema fit in the 4 bits per digit of a
    payload of the expected length. *)
Theorem schema_tables_consistent (devType : DevType) (version : JS.number)
    (flags : Flags) :
  getProp (FLAGS_MAPPING devType) version = Some flags ->
  tiles 0 flags = true /\
  (forall (i j : nat) e1 e2,
     flags !! i = Some e1 -> flags !! j = Some e2 -> (i < j)%nat ->
     fst (snd e1) + snd (snd e1) <= fst (snd e2)) /\
  (forall name off w, In (name, (off, w)) flags ->
     0 <= off /\ 0 < w /\ off + w <= declaredBits flags) /\
  (forall len, getProp (FLAGS_LENGTH devType) version = Some len ->
               declaredBits flags <= 4 * len) /\
  (forall family v len, getProp (FLAGS_LENGTH family) v = Some len ->
                        is_Some (getProp (FLAGS_MAPPING family) v)).
Proof.
  intros Hflags.
  assert (Htiles : tiles 0 flags = true).
  { apply registry_cases in Hflags as [-> | [-> | [-> | ->]]];
      vm_compute; reflexivity. }
  destruct (tiles_ordered 0 flags Htiles) as [Hin Hord].
  split; [exact Htiles |]. split; [exact Hord |]. split; [exact Hin |]. split.
  - intros len Hlen. destruct version as [| s | z]; try discriminate.
    simpl in Hflags, Hlen.
    destruct devType; unfold FLAGS_LENGTH in Hlen;
      repeat (rewrite lookup_insert in Hlen; case_decide;
              [subst z; injection Hlen as <-; vm_compute in Hflags;
               injection Hflags as <-; vm_compute; discriminate |]);
      rewrite lookup_empty in Hlen; discriminate.
  - intros family v len Hlen. destruct v as [| s | z]; try discriminate.
    simpl in Hlen. simpl.
    destruct family; unfold FLAGS_LENGTH in Hlen;
      repeat (rewrite lookup_insert in Hlen; case_decide;
              [subst z; vm_compute; eauto |]);
      rewrite lookup_empty in Hlen; discriminate.
Qed.

Lemma schema_tables_consistent_witness :
  tiles 0 FLAGS_HUB_V2 = true /\
  (forall len, getProp (FLAGS_LENGTH hub) (JS.Fin 2) = Some len ->
               declaredBits FLAGS_HUB_V2 <= 4 * len).
Proof.
  pose proof (schema_tables_consistent hub (JS.Fin 2) FLAGS_HUB_V2 eq_refl)
    as (H1 & _ & _ & H4 & _).
  exact (conj H1 H4).
Defined.

(** X16.  The members of [VODTrigger] other than [NONE] are single bits,
    one for each, below bit 7: [NONE] is 0, two different members have no
    bit in common ([a & b] is 0), and a member other than [NONE] is kept by
    [&] with itself. *)
Theorem VODTrigger_disjoint (a b : VODTrigger) :
  VODTrigger_value NONE = JS.Fin 0 /\
  (exists k, 0 <= k < 7 /\ (a <> NONE -> VODTrigger_value a = JS.Fin (2 ^ k))) /\
  (a <> b -> JS.band (VODTrigger_value a) (VODTrigger_value b) = JS.Fin 0) /\
  (a <> NONE -> JS.band (VODTrigger_value a) (VODTrigger_value a)
                = VODTrigger_value a) /\
  (VODTrigger_value a = VODTrigger_value b -> a = b).
Proof.
  split; [reflexivity |]. split.
  - destruct a; [exists 0 | exists 0 | exists 1 | exists 2 | exists 3 | exists 4
                 | exists 5 | exists 6];
      (split; [lia | intros H; try congruence; vm_compute; reflexivity]).
  - split; [| split].
    + destruct a, b; intros H; try congruence; vm_compute; reflexivity.
    + destruct a; intros H; try congruence; vm_compute; reflexivity.
    + destruct a, b; intros H; try reflexivity; vm_compute in H; discriminate H.
Qed.

End Tables.

(** ** Directory and extension *)

Section Stem.

Lemma append_String (c : ascii) (a b : string) :
  (String c a ++ b)%string = String c (a ++ b).
Proof. reflexivity. Qed.

Lemma append_assoc (a b c : string) : ((a ++ b) ++ c = a ++ (b ++ c))%string.
Proof.
  induction a as [| x a IH]; [reflexivity |].
  rewrite !append_String. now rewrite IH.
Qed.

Lemma split_app_sep (sep : ascii) (a b : string) :
  Str.split sep (a ++ String sep b) = (Str.split sep a ++ Str.split sep b)%list.
Proof.
  induction a as [| c a IH].
  - change ("" ++ String sep b)%string with (String sep b).
    cbn [Str.split]. now rewrite Ascii.eqb_refl.
  - rewrite append_String. cbn [Str.split].
    destruct (Ascii.eqb c sep); rewrite IH; [reflexivity |].
    destruct (split_cons sep a) as (h & t & ->). reflexivity.
Qed.

Lemma join_cons (sep x y : string) (l : list string) :
  Str.join sep (x :: y :: l) = (x ++ sep ++ Str.join sep (y :: l))%string.
Proof. reflexivity. Qed.

Lemma join_split (sep : ascii) (s : string) :
  Str.join (String sep "") (Str.split sep s) = s.
Proof.
  induction s as [| c s IH]; [reflexivity |].
  cbn [Str.split]. destruct (split_cons sep s) as (h & t & Hs).
  destruct (Ascii.eqb_spec c sep) as [-> | Hne].
  - rewrite Hs, join_cons, <- Hs, IH. reflexivity.
  - rewrite Hs. destruct t as [| h' t].
    + rewrite Hs in IH. cbn [Str.join] in *. now rewrite IH.
    + rewrite join_cons, append_String, <- join_cons, <- Hs, IH. reflexivity.
Qed.

Lemma slice_init_snoc {A} (l : list A) (x : A) : Str.slice_init (l ++ [x]) = l.
Proof. apply removelast_last. Qed.

Lemma slice_last_snoc {A} (l : list A) (x : A) : Str.slice_last (l ++ [x]) = [x].
Proof.
  unfold Str.slice_last. rewrite List.map_app. cbn [map]. now rewrite last_last.
Qed.

Lemma pop_snoc {A} (l : list A) (x : A) : Str.pop (l ++ [x]) = Some x.
Proof.
  unfold Str.pop. rewrite List.map_app. cbn [map]. now rewrite last_last.
Qed.

(** The stem of a name made of a directory part, a base without ['/'] and
    an extension without ['.']. *)
Lemma stem_of_parts (pre base ext : string) :
  pre = "" \/ (exists dir, pre = (dir ++ "/")%string) ->
  ~ In "/"%char (list_ascii_of_string base) ->
  ~ In "."%char (list_ascii_of_string ext) ->
  stem (pre ++ base ++ String "." ext) = Return base.
Proof.
  intros Hpre Hbase Hext. unfold stem.
  rewrite <- append_assoc, split_app_sep, (split_no_sep _ ext Hext).
  rewrite slice_init_snoc, pop_snoc, join_split.
  assert (Hlast : Str.slice_last (Str.split "/" (pre ++ base)) = [base]).
  { destruct Hpre as [-> | [dir ->]].
    - change ("" ++ base)%string with base.
      rewrite (split_no_sep _ base Hbase). reflexivity.
    - rewrite append_assoc. change ("/" ++ base)%string with (String "/" base).
      rewrite split_app_sep, (split_no_sep _ base Hbase).
      apply slice_last_snoc. }
  rewrite Hlast. cbn [map app]. change ([Some base; Some ext] !! 0%nat)
    with (Some (Some base)). cbn [mjoin option_join defined mbind completion_bind].
  rewrite (split_no_sep _ base Hbase). reflexivity.
Qed.

Lemma tokenize_result_only_name fileName fileName' name :
  snd (tokenize fileName name) = snd (tokenize fileName' name).
Proof.
  unfold tokenize. destruct (Str.split "_" name !! 0%nat) as [tok0 |]; [| reflexivity].
  destruct (negb (Str.startsWith "Rec" tok0) || negb (String.length tok0 =? 6)%nat);
    [reflexivity |].
  destruct (List.length (Str.split "_" name) =? 6)%nat; [reflexivity |].
  destruct (List.length (Str.split "_" name) =? 9)%nat; reflexivity.
Qed.

Lemma decodeTokens_result_only_tokens fileName fileName' t :
  snd (decodeTokens fileName t) = snd (decodeTokens fileName' t).
Proof.
  unfold decodeTokens. destruct (hexValue t) as [hex |]; [| reflexivity].
  unfold resolveVersion.
  destruct (negb (hasOwnProperty (FLAGS_MAPPING (devType t)) (version t)));
    match goal with
    | |- context [decodeHexToFlags ?h ?v ?d] => destruct (decodeHexToFlags h v d)
    end; reflexivity.
Qed.

Lemma outcome_of_stem fileName fileName' :
  stem fileName = stem fileName' -> outcome fileName = outcome fileName'.
Proof.
  intros Hstem. unfold outcome, parseFileName. rewrite <- Hstem.
  destruct (stem fileName) as [name |]; [| reflexivity].
  pose proof (tokenize_result_only_name fileName fileName' name) as Htok.
  destruct (tokenize fileName name) as [log0 r0].
  destruct (tokenize fileName' name) as [log0' r0']. simpl in Htok. subst r0'.
  destruct r0 as [[t |] |]; try reflexivity.
  pose proof (decodeTokens_result_only_tokens fileName fileName' t) as Hdec.
  destruct (decodeTokens fileName t) as [log r].
  destruct (decodeTokens fileName' t) as [log' r']. exact Hdec.
Qed.

(** X1.  For a file name made of an optional directory part that ends
    with ['/'], a base name without ['/'] and an extension without ['.'],
    the name that is tokenized is the base name (dots inside it are kept),
    and the value [parseFileName] returns does not depend on the directory
    part or on the extension. *)
Theorem result_depends_on_base_only (pre base ext pre' ext' : string) :
  pre = "" \/ (exists dir, pre = (dir ++ "/")%string) ->
  pre' = "" \/ (exists dir, pre' = (dir ++ "/")%string) ->
  ~ In "/"%char (list_ascii_of_string base) ->
  ~ In "."%char (list_ascii_of_string ext) ->
  ~ In "."%char (list_ascii_of_string ext') ->
  stem (pre ++ base ++ String "." ext) = Return base /\
  outcome (pre ++ base ++ String "." ext) =
  outcome (pre' ++ base ++ String "." ext').
Proof.
  intros Hpre Hpre' Hbase Hext Hext'.
  split; [now apply stem_of_parts |].
  apply outcome_of_stem. now rewrite !stem_of_parts.
Qed.

Lemma result_depends_on_base_only_witness :
  stem ("Mp4Record/2020-12-22/" ++ "RecM01_20201222_075939_080140_6D28808_1A468F9"
          ++ String "." "mp4") =
    Return "RecM01_20201222_075939_080140_6D28808_1A468F9" /\
  outcome ("Mp4Record/2020-12-22/" ++ "RecM01_20201222_075939_080140_6D28808_1A468F9"
             ++ String "." "mp4") =
  outcome ("" ++ "RecM01_20201222_075939_080140_6D28808_1A468F9" ++ String "." "jpg").
Proof.
  apply result_depends_on_base_only.
  - right. exists "Mp4Record/2020-12-22". reflexivity.
  - left. reflexivity.
  - simpl. intros H. repeat (destruct H as [H | H]; [discriminate H |]). exact H.
  - simpl. intros H. repeat (destruct H as [H | H]; [discriminate H |]). exact H.
  - simpl. intros H. repeat (destruct H as [H | H]; [discriminate H |]). exact H.
Defined.

End Stem.
